(** * Read-through cache, timing instrumentation and background dispatch

    A shallow embedding of [backend_performance_tuning.py]: the two
    decorators [performance_metrics] and [cache_result], the Redis client
    they talk to, and the four Flask views built from them.

    Python code runs against a mutable world (clock, Redis server, log,
    database, started threads); here every function takes the world and
    returns an outcome together with the new world.  An exception aborts the
    rest of the function but keeps the effects made so far. *)

From Stdlib Require Import ZArith NArith String Ascii List Strings.Byte Bool Lia.
From Stdlib Require Import DecimalString Decimal DecimalZ.
From Stdlib Require Import Permutation.
From stdpp Require Import gmap strings.
Import ListNotations.

Local Open Scope Z_scope.
Set Warnings "-register-all".

(** ** Python values *)

Module Py.

(** The values a call can be given.  The scalars are the ones a view
    receives as arguments and a JSON body carries; a [PStr] is a sequence of
    code points below 256.  [PObj shown ident] is an object of a class that
    defines [__repr__] and nothing else: [shown] is what its [repr] prints,
    [ident] tells one object from another. *)
Inductive pyval : Type :=
| PNone
| PBool (b : bool)
| PInt (z : Z)
| PStr (s : string)
| PBytes (bs : list byte)
| PObj (shown : string) (ident : Z).

(** The scalars: [None], [bool], [int], [str] and [bytes] values. *)
Definition is_scalar (v : pyval) : bool :=
  match v with
  | PObj _ _ => false
  | _ => true
  end.

(** What [jsonify] is given. *)
Inductive json : Type :=
| JVal (v : pyval)
| JList (l : list json)
| JDict (l : list (string * json)).

(** What a handler returns: a scalar, a Flask response (the result of
    [jsonify]), or a tuple such as [(jsonify(...), 201)]. *)
Inductive pyobj : Type :=
| Val (v : pyval)
| Response (body : json)
| Tuple (l : list pyobj).

(** Exceptions that can reach a caller. *)
Inductive exn : Type :=
| ConnectionError            (* redis.exceptions.ConnectionError *)
| DataError                  (* redis.exceptions.DataError *)
| ResponseError              (* redis.exceptions.ResponseError *)
| IntegrityError             (* sqlalchemy.exc.IntegrityError *)
| StatementError             (* sqlalchemy.exc.StatementError / DataError *)
| UnsupportedMediaType       (* werkzeug, request.json on a non-JSON body *)
| PyException (name : string).

Inductive result (A : Type) : Type :=
| Ok (a : A)
| Raise (e : exn).
Arguments Ok {A} a.
Arguments Raise {A} e.

(** [bool(v)], the test behind [if v:]. *)
Definition truthy_val (v : pyval) : bool :=
  match v with
  | PNone => false
  | PBool b => b
  | PInt z => negb (z =? 0)
  | PStr s => negb (String.eqb s EmptyString)
  | PBytes bs => match bs with [] => false | _ :: _ => true end
  | PObj _ _ => true
  end.

Definition truthy (o : pyobj) : bool :=
  match o with
  | Val v => truthy_val v
  | Response _ => true
  | Tuple l => match l with [] => false | _ :: _ => true end
  end.

(** *** [repr] and the text of an argument tuple

    [repr] of [None], [bool], [int], [str] and [bytes] as CPython prints
    them: decimal integers, and string literals whose quote is the single
    quote unless the text has a single quote and no double quote. *)

Definition squote : ascii := "'"%char.
Definition dquote : ascii := "034"%char.
Definition backslash : ascii := "092"%char.

Definition hex_digit (n : N) : ascii :=
  ascii_of_N (if (n <? 10)%N then 48 + n else 87 + n)%N.

Definition hex2 (c : ascii) : string :=
  let n := N_of_ascii c in
  String (hex_digit (n / 16)) (String (hex_digit (n mod 16)) EmptyString).

(** [str.isprintable] on code points below 256, and the printable range of
    a [bytes] literal. *)
Definition str_printable (c : ascii) : bool :=
  let n := N_of_ascii c in
  ((32 <=? n) && (n <? 127) || (161 <=? n) && negb (n =? 173))%N.

Definition bytes_printable (c : ascii) : bool :=
  let n := N_of_ascii c in ((32 <=? n) && (n <? 127))%N.

Definition escape_char (printable : ascii -> bool) (q c : ascii) : string :=
  if Ascii.eqb c q || Ascii.eqb c backslash then String backslash (String c EmptyString)
  else if Ascii.eqb c "009" then String backslash "t"
  else if Ascii.eqb c "010" then String backslash "n"
  else if Ascii.eqb c "013" then String backslash "r"
  else if printable c then String c EmptyString
  else String backslash (String "x" (hex2 c)).

Fixpoint escape (printable : ascii -> bool) (q : ascii) (s : string) : string :=
  match s with
  | EmptyString => EmptyString
  | String c s' => escape_char printable q c +:+ escape printable q s'
  end.

Fixpoint has_char (c : ascii) (s : string) : bool :=
  match s with
  | EmptyString => false
  | String d s' => Ascii.eqb d c || has_char c s'
  end.

Definition quote_for (s : string) : ascii :=
  if has_char squote s && negb (has_char dquote s) then dquote else squote.

Definition quoted (printable : ascii -> bool) (s : string) : string :=
  let q := quote_for s in
  String q (escape printable q s +:+ String q EmptyString).

(** [repr] of an [int]: its decimal digits, with a minus sign when negative
    (CPython refuses to print integers of more than 4300 digits; they are
    not told apart here). *)
Definition repr_int (z : Z) : string := NilZero.string_of_int (Z.to_int z).

Definition repr (v : pyval) : string :=
  match v with
  | PNone => "None"
  | PBool true => "True"
  | PBool false => "False"
  | PInt z => repr_int z
  | PStr s => quoted str_printable s
  | PBytes bs => String "b" (quoted bytes_printable (string_of_list_byte bs))
  | PObj shown _ => shown
  end.

(** [a == b]: a [bool] is the integer 0 or 1, values of different kinds are
    unequal, and two objects are equal when they are the same object. *)
Definition as_number (v : pyval) : option Z :=
  match v with
  | PBool b => Some (if b then 1 else 0)
  | PInt z => Some z
  | _ => None
  end.

Definition py_eq (a b : pyval) : bool :=
  match a, b with
  | PNone, PNone => true
  | PStr s, PStr t => String.eqb s t
  | PBytes x, PBytes y => String.eqb (string_of_list_byte x) (string_of_list_byte y)
  | PObj _ i, PObj _ j => i =? j
  | _, _ =>
      match as_number a, as_number b with
      | Some x, Some y => x =? y
      | _, _ => false
      end
  end.

(** Equality of argument tuples: the same length and equal items. *)
Fixpoint py_eq_tuple (a b : list pyval) : bool :=
  match a, b with
  | [], [] => true
  | x :: a', y :: b' => py_eq x y && py_eq_tuple a' b'
  | _, _ => false
  end.

(** [str(args)] for a tuple: [()], [(x,)], [(x, y, ...)]. *)
Fixpoint repr_items (l : list pyval) : string :=
  match l with
  | [] => EmptyString
  | x :: [] => repr x
  | x :: (_ :: _) as rest => repr x +:+ ", " +:+ repr_items rest
  end.

Definition str_tuple (l : list pyval) : string :=
  match l with
  | [] => "()"
  | [x] => "(" +:+ repr x +:+ ",)"
  | _ => "(" +:+ repr_items l +:+ ")"
  end.

End Py.
Export Py.

(** ** The world a request runs in *)

Module Db.

(** The two tables of the service ([class User], [class Post]). *)
Record User : Type := { user_id : Z; username : string; email : string }.
Record Post : Type := { post_id : Z; post_user_id : Z; content : string }.

(** The driver and the server behind SQLAlchemy are not part of the service.
    What they do with the values of a row is kept as a parameter of the
    database: the text and the number a pair of values is stored as (a
    number bound to a text column is stored as its text, a text bound to an
    integer column as the number it spells) or the error raised when a value
    cannot be adapted, is too long or out of range; and where each id
    sequence stands once a statement has been sent (a rejected insert may
    use up an id). *)
Record engine : Type := {
  adapt_user : pyval -> pyval -> result (string * string);
  adapt_post : pyval -> pyval -> result (Z * string);
  reseed_user : Z -> pyval -> pyval -> Z;
  reseed_post : Z -> pyval -> pyval -> Z
}.

Record database : Type := {
  users : list User;
  posts : list Post;
  latency : N;           (* milliseconds one round trip to the database takes *)
  driver : engine
}.

Definition is_none (v : pyval) : bool :=
  match v with
  | PNone => true
  | _ => false
  end.

(** [db.session.add(User(username=u, email=e)); db.session.commit()], the
    new row getting the primary key [id].  The engine adapts the values or
    raises; then the declared constraints hold: both columns NOT NULL and
    UNIQUE, [id] the primary key. *)
Definition insert_user (id : Z) (u e : pyval) (d : database) : result database :=
  match adapt_user (driver d) u e with
  | Raise err => Raise err
  | Ok (tu, te) =>
      if is_none u || is_none e then Raise IntegrityError
      else if existsb (fun r => String.eqb (username r) tu || String.eqb (email r) te
                                || (user_id r =? id)) (users d)
      then Raise IntegrityError
      else Ok {| users := users d ++ [ {| user_id := id; username := tu; email := te |} ];
                 posts := posts d; latency := latency d; driver := driver d |}
  end.

(** [db.session.add(Post(user_id=uid, content=c)); db.session.commit()], the
    new row getting the primary key [id]: both columns NOT NULL, [user_id] a
    foreign key into [user.id]. *)
Definition insert_post (id : Z) (uid c : pyval) (d : database) : result database :=
  match adapt_post (driver d) uid c with
  | Raise err => Raise err
  | Ok (nuid, tc) =>
      if is_none uid || is_none c then Raise IntegrityError
      else if negb (existsb (fun r => user_id r =? nuid) (users d))
              || existsb (fun p => post_id p =? id) (posts d)
      then Raise IntegrityError
      else Ok {| users := users d;
                 posts := posts d ++ [ {| post_id := id; post_user_id := nuid;
                                          content := tc |} ];
                 latency := latency d; driver := driver d |}
  end.

End Db.
Export Db.

Module World.

Inductive log_record : Type :=
| LogExecTime (name : string) (start_time end_time : Z)
| LogCacheHit (name : string) (args : list pyval)
| LogCacheMiss (name : string) (args : list pyval)
| LogTaskStart (user : pyval)
| LogTaskDone (user : pyval).

(** The Redis server as the client sees it: the entries with the time each
    one expires at, and a schedule of connection faults, one flag per
    command still to come ([true]: the command fails to reach the server;
    an empty schedule: every command arrives). *)
Record redis_server : Type := {
  entries : gmap string (list byte * Z);
  faults : list bool
}.

Record thread : Type := { target : string; thread_args : list pyval }.

Record app_state : Type := {
  db : database;
  request_json : option (list (string * pyval));  (* [request.json] *)
  user_seq : Z;                                   (* the id the next user row gets *)
  post_seq : Z                                    (* the id the next post row gets *)
}.

(** [calls] is a ghost record of the calls made to the functions defined
    with [def], in order. *)
Record world : Type := {
  app : app_state;
  now : Z;                                        (* clock, milliseconds *)
  redis : redis_server;
  log : list log_record;
  calls : list (string * list pyval);
  threads : list thread
}.

Definition set_app (s : app_state) (w : world) : world :=
  {| app := s; now := now w; redis := redis w; log := log w;
     calls := calls w; threads := threads w |}.
Definition set_now (t : Z) (w : world) : world :=
  {| app := app w; now := t; redis := redis w; log := log w;
     calls := calls w; threads := threads w |}.
Definition set_redis (r : redis_server) (w : world) : world :=
  {| app := app w; now := now w; redis := r; log := log w;
     calls := calls w; threads := threads w |}.
Definition set_log (l : list log_record) (w : world) : world :=
  {| app := app w; now := now w; redis := redis w; log := l;
     calls := calls w; threads := threads w |}.
Definition set_calls (c : list (string * list pyval)) (w : world) : world :=
  {| app := app w; now := now w; redis := redis w; log := log w;
     calls := c; threads := threads w |}.
Definition set_threads (t : list thread) (w : world) : world :=
  {| app := app w; now := now w; redis := redis w; log := log w;
     calls := calls w; threads := t |}.

(** Time passing: [d] milliseconds. *)
Definition advance (d : N) (w : world) : world := set_now (now w + Z.of_N d) w.

(** A computation: world in, outcome and world out. *)
Definition M (A : Type) : Type := world -> result A * world.

Definition ret {A} (a : A) : M A := fun w => (Ok a, w).
Definition raise {A} (e : exn) : M A := fun w => (Raise e, w).
Definition bind {A B} (c : M A) (k : A -> M B) : M B :=
  fun w => match c w with
           | (Ok a, w') => k a w'
           | (Raise e, w') => (Raise e, w')
           end.

End World.
Export World.

Declare Scope py_scope.
Delimit Scope py_scope with py.
Notation "'do' x <- c ; k" := (bind c (fun x => k))
  (at level 10, x name, c at level 100, k at level 200) : py_scope.
Notation "c ;; k" := (bind c (fun _ => k))
  (at level 100, k at level 200, right associativity) : py_scope.
Local Open Scope py_scope.

(** ** Library calls *)

(** [time.time()] *)
Definition time_time : M Z := fun w => (Ok (now w), w).

(** [time.sleep(d)], [d] in milliseconds *)
Definition time_sleep (d : N) : M unit := fun w => (Ok tt, advance d w).

(** [logging.info(...)] *)
Definition logging_info (r : log_record) : M unit :=
  fun w => (Ok tt, set_log (log w ++ [r]) w).

(** [threading.Thread(target=..., args=...).start()] *)
Definition thread_start (t : thread) : M unit :=
  fun w => (Ok tt, set_threads (threads w ++ [t]) w).

(** ** The Redis client ([redis = Redis(host='localhost', port=6379)])

    The client is created without [decode_responses], so [get] answers
    [bytes] or [None]. *)

Module Redis.

(** [str.encode('utf-8')] on code points below 256. *)
Definition utf8_char (c : ascii) : list byte :=
  let n := N_of_ascii c in
  if (n <? 128)%N then [byte_of_ascii c]
  else [byte_of_ascii (ascii_of_N (192 + n / 64)); byte_of_ascii (ascii_of_N (128 + n mod 64))].

Fixpoint utf8 (s : string) : list byte :=
  match s with
  | EmptyString => []
  | String c s' => utf8_char c ++ utf8 s'
  end.

(** How the client turns a value into the bytes it sends: [bytes] as they
    are, [str] in UTF-8, [int] through [repr]; anything else ([None], a
    [bool], a response object, a tuple) is refused with [DataError]. *)
Definition encode (o : pyobj) : option (list byte) :=
  match o with
  | Val (PBytes bs) => Some bs
  | Val (PStr s) => Some (utf8 s)
  | Val (PInt z) => Some (list_byte_of_string (repr_int z))
  | _ => None
  end.

(** The schedule after one more command, and whether that command fails. *)
Definition next_fault (r : redis_server) : bool * redis_server :=
  match faults r with
  | [] => (false, r)
  | f :: fs => (f, {| entries := entries r; faults := fs |})
  end.

(** What a lookup at time [t] finds: an entry whose time has come is gone. *)
Definition live (t : Z) (key : string) (r : redis_server) : option (list byte) :=
  match entries r !! key with
  | Some (v, expires_at) => if t <? expires_at then Some v else None
  | None => None
  end.

(** [redis.get(key)] *)
Definition get (key : string) : M pyobj :=
  fun w =>
    let (down, r) := next_fault (redis w) in
    if down then (Raise ConnectionError, set_redis r w)
    else (Ok (match live (now w) key r with
              | Some v => Val (PBytes v)
              | None => Val PNone
              end), set_redis r w).

(** [redis.setex(key, timeout, value)], [timeout] in seconds.  The
    connection is taken first, the value is encoded when the command is
    sent, and the server refuses an expiry that is not positive. *)
Definition setex (key : string) (timeout : Z) (value : pyobj) : M unit :=
  fun w =>
    let (down, r) := next_fault (redis w) in
    if down then (Raise ConnectionError, set_redis r w)
    else match encode value with
         | None => (Raise DataError, set_redis r w)
         | Some bs =>
             if timeout <=? 0 then (Raise ResponseError, set_redis r w)
             else (Ok tt,
                   set_redis {| entries := <[key := (bs, now w + 1000 * timeout)]> (entries r);
                                faults := faults r |} w)
         end.

End Redis.

(** ** Functions and the two decorators *)

(** A Python function: its [__name__] and what calling it does. *)
Record pyfunc : Type := { fname : string; fcall : list pyval -> M pyobj }.

(** A function defined with [def]; each call of it is recorded in
    [calls]. *)
Definition def (name : string) (body : list pyval -> M pyobj) : pyfunc :=
  {| fname := name;
     fcall := fun args w => body args (set_calls (calls w ++ [(name, args)]) w) |}.

(** [performance_metrics(func)]; [@wraps(func)] keeps the name. *)
Definition performance_metrics (func : pyfunc) : pyfunc :=
  {| fname := fname func;
     fcall := fun args =>
       do start_time <- time_time;
       do result <- fcall func args;
       do end_time <- time_time;
       logging_info (LogExecTime (fname func) start_time end_time) ;;
       ret result |}.

(** The key of a call: [f"{func.__name__}:{args}"]. *)
Definition cache_key (name : string) (args : list pyval) : string :=
  name +:+ ":" +:+ str_tuple args.

(** The cache client a wrapper talks to; the module-level [redis] object
    is [redis_client]. *)
Record cache_client : Type := {
  client_get : string -> M pyobj;
  client_setex : string -> Z -> pyobj -> M unit
}.

Definition redis_client : cache_client :=
  {| client_get := Redis.get; client_setex := Redis.setex |}.

(** [cache_result(timeout)(func)], over the client it uses. *)
Definition cache_result_on (client : cache_client) (timeout : Z) (func : pyfunc) : pyfunc :=
  {| fname := fname func;
     fcall := fun args =>
       do cached_result <- client_get client (cache_key (fname func) args);
       if truthy cached_result then
         logging_info (LogCacheHit (fname func) args) ;;
         ret cached_result
       else
         logging_info (LogCacheMiss (fname func) args) ;;
         do result <- fcall func args;
         client_setex client (cache_key (fname func) args) timeout result ;;
         ret result |}.

Definition cache_result : Z -> pyfunc -> pyfunc := cache_result_on redis_client.

(** ** Handlers *)

(** A handler that sees the application state only: given its arguments
    and the state it answers an outcome, the new state and the milliseconds
    it took. *)
Definition handler : Type :=
  list pyval -> app_state -> result pyobj * app_state * N.

Definition run_handler (h : handler) : list pyval -> M pyobj :=
  fun args w => let '(r, s, d) := h args (app w) in (r, advance d (set_app s w)).

(** The handler [h] under the name [name], cached for [timeout] seconds. *)
Definition cached (timeout : Z) (name : string) (h : handler) : pyfunc :=
  cache_result timeout (def name (run_handler h)).

(** ** The service *)

Definition set_db (d : database) (w : world) : world :=
  set_app {| db := d; request_json := request_json (app w);
             user_seq := user_seq (app w); post_seq := post_seq (app w) |} w.

Definition round_trip (w : world) : world := advance (latency (db (app w))) w.

(** [User.query.all()], [Post.query.all()] *)
Definition query_all_users : M (list User) :=
  fun w => (Ok (users (db (app w))), round_trip w).
Definition query_all_posts : M (list Post) :=
  fun w => (Ok (posts (db (app w))), round_trip w).

Fixpoint dict_get (key : string) (d : list (string * pyval)) : pyval :=
  match d with
  | [] => PNone
  | (k, v) :: d' => if String.eqb k key then v else dict_get key d'
  end.

(** [request.json.get(key)] *)
Definition request_json_get (key : string) : M pyval :=
  fun w => match request_json (app w) with
           | None => (Raise UnsupportedMediaType, w)
           | Some body => (Ok (dict_get key body), w)
           end.

(** [db.session.add(row); db.session.commit()]: the row is inserted under
    the id its sequence hands out, and the sequence moves on as the engine
    has it, whether the insert is accepted or not. *)
Definition session_commit (next : app_state -> Z) (reseed : app_state -> app_state)
    (insert : Z -> database -> result database) : M unit :=
  fun w => let w1 := set_app (reseed (app w)) w in
           match insert (next (app w)) (db (app w)) with
           | Ok d => (Ok tt, round_trip (set_db d w1))
           | Raise e => (Raise e, round_trip w1)
           end.

Definition reseed_users (u e : pyval) (s : app_state) : app_state :=
  {| db := db s; request_json := request_json s;
     user_seq := reseed_user (driver (db s)) (user_seq s) u e;
     post_seq := post_seq s |}.

Definition reseed_posts (uid c : pyval) (s : app_state) : app_state :=
  {| db := db s; request_json := request_json s;
     user_seq := user_seq s;
     post_seq := reseed_post (driver (db s)) (post_seq s) uid c |}.

Definition jsonify (j : json) : pyobj := Response j.

Definition user_json (u : User) : json :=
  JDict [("id", JVal (PInt (user_id u))); ("username", JVal (PStr (username u)));
         ("email", JVal (PStr (email u)))]%string.
Definition post_json (p : Post) : json :=
  JDict [("id", JVal (PInt (post_id p))); ("user_id", JVal (PInt (post_user_id p)));
         ("content", JVal (PStr (content p)))]%string.
Definition message_json (m : string) : json :=
  JDict [("message"%string, JVal (PStr m))].

(** A view of this service takes no argument. *)
Definition no_args {A} (args : list pyval) (body : M A) : M A :=
  match args with
  | [] => body
  | _ :: _ => raise (PyException "TypeError")
  end.

Definition long_running_task (user : pyval) : M unit :=
  logging_info (LogTaskStart user) ;;
  time_sleep 10000 ;;
  logging_info (LogTaskDone user).

Definition get_users_body : list pyval -> M pyobj :=
  fun args => no_args args (
    do users <- query_all_users;
    ret (jsonify (JList (map user_json users)))).

Definition get_posts_body : list pyval -> M pyobj :=
  fun args => no_args args (
    do posts <- query_all_posts;
    ret (jsonify (JList (map post_json posts)))).

Definition add_user_body : list pyval -> M pyobj :=
  fun args => no_args args (
    do username <- request_json_get "username";
    do email <- request_json_get "email";
    session_commit user_seq (reseed_users username email)
      (fun id => insert_user id username email) ;;
    ret (Tuple [jsonify (message_json "User added"); Val (PInt 201)])).

Definition add_post_body : list pyval -> M pyobj :=
  fun args => no_args args (
    do user <- request_json_get "user_id";
    do content <- request_json_get "content";
    session_commit post_seq (reseed_posts user content)
      (fun id => insert_post id user content) ;;
    thread_start {| target := "long_running_task"; thread_args := [user] |} ;;
    ret (Tuple [jsonify (message_json "Post added"); Val (PInt 201)])).

Definition get_users : pyfunc :=
  performance_metrics (def "get_users" get_users_body).

Definition get_posts : pyfunc :=
  performance_metrics (cache_result 120 (def "get_posts" get_posts_body)).

Definition add_user : pyfunc :=
  performance_metrics (def "add_user" add_user_body).

Definition add_post : pyfunc :=
  performance_metrics (def "add_post" add_post_body).

(** ** The two compositions

    A read handler is instrumented around its cache wrapper, a write handler
    is instrumented only. *)
Definition wrap (name : string) (h : handler) (ttl : option Z) : pyfunc :=
  match ttl with
  | Some timeout => performance_metrics (cached timeout name h)
  | None => performance_metrics (def name (run_handler h))
  end.

(** ** Vocabulary of the statements *)

(** The lookup at time [t] short-circuits: a live entry with truthy bytes. *)
Definition hit (t : Z) (key : string) (r : redis_server) : bool :=
  match Redis.live t key r with
  | Some (_ :: _) => true
  | _ => false
  end.


Definition is_timing (r : log_record) : bool :=
  match r with
  | LogExecTime _ _ _ => true
  | _ => false
  end.

(** The timing records of a log, in order. *)
Definition timing_records (l : list log_record) : list log_record :=
  List.filter is_timing l.

(** Successive calls of [f] on [args], each after the given wait. *)
Fixpoint call_each (f : pyfunc) (args : list pyval) (waits : list N) (w : world) : world :=
  match waits with
  | [] => w
  | d :: ds => call_each f args ds (snd (fcall f args (advance d w)))
  end.

(** ** Sample inputs *)

Module Sample.

(** An engine for the examples: a text is stored as it is, an integer bound
    to a text column as its decimal text, an integer or the text of one
    bound to an integer column as that integer, anything else is refused;
    [None] is passed on as NULL, which the NOT NULL columns then refuse;
    every statement uses up one id. *)
Definition text_of (v : pyval) : option string :=
  match v with
  | PStr s => Some s
  | PInt z => Some (repr_int z)
  | PNone => Some EmptyString
  | _ => None
  end.

Definition sample_engine : engine :=
  {| adapt_user := fun u e =>
       match text_of u, text_of e with
       | Some tu, Some te => Ok (tu, te)
       | _, _ => Raise StatementError
       end;
     adapt_post := fun uid c =>
       match uid, text_of c with
       | PInt z, Some tc => Ok (z, tc)
       | PStr s, Some tc =>
           match NilZero.int_of_string s with
           | Some i => Ok (Z.of_int i, tc)
           | None => Raise StatementError
           end
       | PNone, Some tc => Ok (0, tc)
       | _, _ => Raise StatementError
       end;
     reseed_user := fun n _ _ => n + 1;
     reseed_post := fun n _ _ => n + 1 |}.

Definition empty_db : database :=
  {| users := []; posts := []; latency := 2; driver := sample_engine |}.

Definition world0 : world :=
  {| app := {| db := empty_db; request_json := None; user_seq := 1; post_seq := 1 |};
     now := 0;
     redis := {| entries := ∅; faults := [] |};
     log := []; calls := []; threads := [] |}.

(** The service with the cache out of reach for the next commands. *)
Definition world_down : world :=
  set_redis {| entries := ∅; faults := [true; true; true; true; true; true] |} world0.

(** The cache reachable for the lookup and out of reach for the store. *)
Definition world_flaky : world :=
  set_redis {| entries := ∅; faults := [false; true] |} world0.

(** [h(x) = x * 2], taking 7 ms. *)
Definition double : handler :=
  fun args s =>
    match args with
    | [PInt x] => (Ok (Val (PInt (x * 2))), s, 7%N)
    | _ => (Raise (PyException "TypeError"), s, 0%N)
    end.

(** A handler that answers the bytes [b'ok']. *)
Definition ok_bytes : handler :=
  fun _ s => (Ok (Val (PBytes ["o"%byte; "k"%byte])), s, 7%N).

(** A handler that answers the empty string. *)
Definition blank : handler := fun _ s => (Ok (Val (PStr EmptyString)), s, 7%N).

(** A handler that answers the integer zero. *)
Definition zero : handler := fun _ s => (Ok (Val (PInt 0)), s, 7%N).

(** A handler that raises. *)
Definition failing : handler :=
  fun _ s => (Raise (PyException "ValueError"), s, 7%N).

(** A world with one user and a post request for that user. *)
Definition world_post : world :=
  set_app {| db := {| users := [ {| user_id := 1; username := "ann"; email := "ann@example.org" |} ];
                      posts := []; latency := 2; driver := sample_engine |};
             request_json := Some [("user_id"%string, PInt 1); ("content"%string, PStr "hello")];
             user_seq := 2; post_seq := 1 |}
          world0.

(** A world where the posts listing is already cached. *)
Definition world_warm : world :=
  set_redis {| entries := {[ "get_posts:()"%string := (["["%byte; "]"%byte], 60000) ]};
               faults := [] |} world0.

(** A world with one user and a request that adds a second one. *)
Definition world_signup : world :=
  set_app {| db := db (app world_post);
             request_json := Some [("username"%string, PStr "bob");
                                   ("email"%string, PStr "bob@example.org")];
             user_seq := 2; post_seq := 1 |}
          world0.

(** A world with one user and a request that leaves the e-mail out. *)
Definition world_no_email : world :=
  set_app {| db := db (app world_post);
             request_json := Some [("username"%string, PStr "bob")];
             user_seq := 2; post_seq := 1 |}
          world0.

(** A world with one user, a post request for that user and the posts
    listing already cached. *)
Definition world_post_warm : world := set_redis (redis world_warm) world_post.

(** A handler that answers [None]. *)
Definition none_result : handler := fun _ s => (Ok (Val PNone), s, 7%N).

(** [h(x) = x + 1], taking 3 ms. *)
Definition succ : handler :=
  fun args s =>
    match args with
    | [PInt x] => (Ok (Val (PInt (x + 1))), s, 3%N)
    | _ => (Raise (PyException "TypeError"), s, 0%N)
    end.

End Sample.

(** ** Reading a value back from its [repr]

    The inverse of [repr] on the text of a tuple: it shows that the key of a
    call determines the arguments. *)

Module Parse.

Definition is_quote (c : ascii) : bool := Ascii.eqb c squote || Ascii.eqb c dquote.

Definition unhex (c : ascii) : option N :=
  let n := N_of_ascii c in
  if ((48 <=? n) && (n <=? 57))%N then Some (n - 48)%N
  else if ((97 <=? n) && (n <=? 102))%N then Some (n - 87)%N
  else None.

Definition push (c : ascii) (r : option (string * string)) : option (string * string) :=
  match r with
  | Some (x, rest) => Some (String c x, rest)
  | None => None
  end.

(** The text of a literal up to its closing quote [q], and what follows. *)
Fixpoint parse_quoted (q : ascii) (s : string) : option (string * string) :=
  match s with
  | EmptyString => None
  | String c s1 =>
      if Ascii.eqb c q then Some (EmptyString, s1)
      else if Ascii.eqb c backslash then
        match s1 with
        | EmptyString => None
        | String e s2 =>
            if Ascii.eqb e "x" then
              match s2 with
              | String h1 (String h2 s3) =>
                  match unhex h1, unhex h2 with
                  | Some a, Some b => push (ascii_of_N (16 * a + b)) (parse_quoted q s3)
                  | _, _ => None
                  end
              | _ => None
              end
            else if Ascii.eqb e "t" then push "009" (parse_quoted q s2)
            else if Ascii.eqb e "n" then push "010" (parse_quoted q s2)
            else if Ascii.eqb e "r" then push "013" (parse_quoted q s2)
            else push e (parse_quoted q s2)
        end
      else push c (parse_quoted q s1)
  end.

Definition is_digit (c : ascii) : bool :=
  let n := N_of_ascii c in ((48 <=? n) && (n <=? 57))%N.

Fixpoint span_digits (s : string) : string * string :=
  match s with
  | EmptyString => (EmptyString, EmptyString)
  | String c s' =>
      if is_digit c then let (d, r) := span_digits s' in (String c d, r)
      else (EmptyString, s)
  end.

Definition parse_int (s : string) : option (pyval * string) :=
  match s with
  | EmptyString => None
  | String c s' =>
      let (ds, rest) := span_digits (if Ascii.eqb c "-" then s' else s) in
      match NilZero.int_of_string (if Ascii.eqb c "-" then String c ds else ds) with
      | Some i => Some (PInt (Z.of_int i), rest)
      | None => None
      end
  end.

Definition parse_val (s : string) : option (pyval * string) :=
  match s with
  | EmptyString => None
  | String c r =>
      if Ascii.eqb c "N" then
        match r with
        | String "o" (String "n" (String "e" r')) => Some (PNone, r')
        | _ => None
        end
      else if Ascii.eqb c "T" then
        match r with
        | String "r" (String "u" (String "e" r')) => Some (PBool true, r')
        | _ => None
        end
      else if Ascii.eqb c "F" then
        match r with
        | String "a" (String "l" (String "s" (String "e" r'))) => Some (PBool false, r')
        | _ => None
        end
      else if Ascii.eqb c "b" then
        match r with
        | String q r' =>
            if is_quote q then
              match parse_quoted q r' with
              | Some (x, rest) => Some (PBytes (list_byte_of_string x), rest)
              | None => None
              end
            else None
        | EmptyString => None
        end
      else if is_quote c then
        match parse_quoted c r with
        | Some (x, rest) => Some (PStr x, rest)
        | None => None
        end
      else parse_int s
  end.

(** What follows a value in the text of a tuple does not start with a
    digit: it is a comma or the closing bracket. *)
Definition delimited (s : string) : Prop :=
  match s with
  | EmptyString => True
  | String c _ => is_digit c = false
  end.

End Parse.

(** ** Vocabulary of the service invariants *)








(** * Properties *)

(** ** The key of a call *)

(** The texts CPython prints for a few values and tuples. *)
Example repr_examples :
  repr (PInt (-12)) = "-12"%string /\ repr (PInt 0) = "0"%string /\
  repr (PStr "it's") = String dquote ("it's" +:+ String dquote EmptyString) /\
  repr (PStr (String "010" "a")) =
    String squote (String backslash ("na" +:+ String squote EmptyString)) /\
  repr (PBytes [x00; x41]) =
    String "b" (String squote (String backslash ("x00A" +:+ String squote EmptyString))) /\
  str_tuple [] = "()"%string /\
  str_tuple [PInt 3] = "(3,)"%string /\
  str_tuple [PInt 1; PStr "a"; PNone] = "(1, 'a', None)"%string /\
  cache_key "get_posts" [] = "get_posts:()"%string.
Proof. repeat split; reflexivity. Qed.

Section KeyText.
Import Parse.

Lemma append_cons x (a b : string) : String x a +:+ b = String x (a +:+ b).
Proof. reflexivity. Qed.

Lemma append_assoc (a b c : string) : (a +:+ b) +:+ c = a +:+ (b +:+ c).
Proof.
  induction a as [|x a IH]; [reflexivity | rewrite !append_cons; f_equal; exact IH].
Qed.

(** One escaped character reads back as that character. *)
Lemma parse_escape_char p q c rest :
  (p = str_printable \/ p = bytes_printable) ->
  (q = squote \/ q = dquote) ->
  parse_quoted q (escape_char p q c +:+ rest) = push c (parse_quoted q rest).
Proof.
  intros [-> | ->] [-> | ->];
    destruct c as [[] [] [] [] [] [] [] []]; reflexivity.
Qed.

Lemma parse_escape p q s rest :
  (p = str_printable \/ p = bytes_printable) ->
  (q = squote \/ q = dquote) ->
  parse_quoted q (escape p q s +:+ String q rest) = Some (s, rest).
Proof.
  intros Hp Hq. induction s as [|c s IH]; cbn [escape].
  - simpl. now rewrite Ascii.eqb_refl.
  - rewrite append_assoc, parse_escape_char, IH by assumption. reflexivity.
Qed.

Lemma quote_for_cases s : quote_for s = squote \/ quote_for s = dquote.
Proof. unfold quote_for. destruct (_ && _); auto. Qed.

Lemma span_digits_uint d rest :
  delimited rest ->
  span_digits (NilEmpty.string_of_uint d +:+ rest) = (NilEmpty.string_of_uint d, rest).
Proof.
  intros Hr. induction d; cbn [NilEmpty.string_of_uint]; rewrite ?append_cons;
    cbn [span_digits]; try (rewrite IHd; reflexivity).
  change (EmptyString +:+ rest) with rest.
  destruct rest as [|c r]; simpl in *; [reflexivity | now rewrite Hr].
Qed.

Lemma to_uint_digits p :
  exists c s, NilEmpty.string_of_uint (Pos.to_uint p) = String c s /\ is_digit c = true.
Proof.
  pose proof (DecimalPos.Unsigned.to_uint_nonnil p) as Hn.
  destruct (Pos.to_uint p); try congruence; simpl; eexists _, _; split; reflexivity.
Qed.

Lemma string_of_uint_pos p :
  NilZero.string_of_uint (Pos.to_uint p) = NilEmpty.string_of_uint (Pos.to_uint p).
Proof.
  pose proof (DecimalPos.Unsigned.to_uint_nonnil p) as Hn.
  destruct (Pos.to_uint p); try reflexivity. congruence.
Qed.

Lemma parse_int_repr z rest :
  delimited rest -> parse_int (repr_int z +:+ rest) = Some (PInt z, rest).
Proof.
  intros Hr. unfold repr_int.
  pose proof (DecimalZ.of_to z) as Hz.
  pose proof (NilZero.isi (Z.to_int z)) as Hi.
  destruct z as [|p|p].
  - cbn. destruct rest as [|c r]; simpl in *; [reflexivity | now rewrite Hr].
  - pose proof (DecimalPos.Unsigned.to_uint_nonnil p) as Hn.
    destruct (to_uint_digits p) as (c & s & Hs & Hc).
    cbn [Z.to_int NilZero.string_of_int] in *. rewrite string_of_uint_pos in *.
    unfold parse_int. rewrite Hs, append_cons.
    assert (Hm : Ascii.eqb c "-" = false).
    { destruct c as [[] [] [] [] [] [] [] []]; try reflexivity; discriminate Hc. }
    rewrite Hm. rewrite <- append_cons, <- Hs, span_digits_uint by assumption.
    rewrite Hi; [now rewrite Hz | congruence | congruence].
  - pose proof (DecimalPos.Unsigned.to_uint_nonnil p) as Hn.
    cbn [Z.to_int NilZero.string_of_int] in *. rewrite string_of_uint_pos in *.
    unfold parse_int. rewrite append_cons, Ascii.eqb_refl.
    rewrite span_digits_uint by assumption.
    rewrite Hi; [now rewrite Hz | congruence | congruence].
Qed.

Lemma repr_int_head z rest :
  exists c s, repr_int z +:+ rest = String c s /\ (is_digit c = true \/ c = "-"%char).
Proof.
  unfold repr_int. destruct z as [|p|p]; cbn [Z.to_int NilZero.string_of_int].
  - eexists _, _. split; [reflexivity | now left].
  - destruct (to_uint_digits p) as (c & s & Hs & Hc).
    rewrite string_of_uint_pos, Hs. eexists _, _. split; [reflexivity | now left].
  - eexists _, _. split; [reflexivity | now right].
Qed.

(** [repr] of a scalar followed by a delimiter reads back as the value. *)
Lemma parse_val_repr v rest :
  is_scalar v = true ->
  delimited rest -> parse_val (repr v +:+ rest) = Some (v, rest).
Proof.
  intros Hs Hr. destruct v as [|[]|z|s|bs|shown ident]; try reflexivity;
    try discriminate Hs; clear Hs.
  - destruct (repr_int_head z rest) as (c & s & Hs & Hc).
    cbn [repr]. pose proof (parse_int_repr z rest Hr) as Hp. rewrite Hs in *.
    unfold parse_val.
    destruct Hc as [Hc | ->]; [|exact Hp].
    destruct c as [[] [] [] [] [] [] [] []]; try discriminate Hc; exact Hp.
  - cbn [repr]. unfold quoted. rewrite ?append_cons, append_assoc, ?append_cons.
    destruct (quote_for_cases s) as [-> | ->]; cbn -[parse_quoted escape];
      rewrite parse_escape by auto; reflexivity.
  - cbn [repr]. unfold quoted. rewrite ?append_cons, append_assoc, ?append_cons.
    destruct (quote_for_cases (string_of_list_byte bs)) as [-> | ->];
      cbn -[parse_quoted escape];
      rewrite parse_escape by auto; now rewrite list_byte_of_string_of_list_byte.
Qed.

(** The texts of scalars form a prefix code. *)
Lemma repr_prefix_code v v' r r' :
  is_scalar v = true -> is_scalar v' = true ->
  delimited r -> delimited r' ->
  repr v +:+ r = repr v' +:+ r' -> v = v' /\ r = r'.
Proof.
  intros Hv Hv' Hr Hr' E.
  pose proof (parse_val_repr v r Hv Hr) as P.
  rewrite E, (parse_val_repr v' r' Hv' Hr') in P.
  now inversion P.
Qed.

Lemma repr_items_cons x y l :
  repr_items (x :: y :: l) = repr x +:+ ", " +:+ repr_items (y :: l).
Proof. reflexivity. Qed.

Lemma repr_items_inj l : forall l' r,
  forallb is_scalar l = true -> forallb is_scalar l' = true ->
  l <> [] -> l' <> [] -> delimited r -> (forall c s, r = String c s -> c <> ","%char) ->
  repr_items l +:+ r = repr_items l' +:+ r -> l = l'.
Proof.
  induction l as [|x l IH]; intros l' r Hs Hs' Hl Hl' Hr Hc E; [congruence|].
  destruct l' as [|y l']; [congruence|].
  cbn [forallb] in Hs, Hs'. apply andb_prop in Hs, Hs'.
  destruct Hs as [Hx Hs], Hs' as [Hy Hs'].
  destruct l as [|x2 l], l' as [|y2 l'].
  - cbn [repr_items] in E. apply repr_prefix_code in E; try assumption.
    now destruct E as [-> _].
  - rewrite repr_items_cons in E. cbn [repr_items] in E.
    rewrite !append_assoc in E.
    apply repr_prefix_code in E; try assumption; [|reflexivity].
    destruct E as [_ E]. exfalso. eapply Hc; [exact E | reflexivity].
  - rewrite repr_items_cons in E. cbn [repr_items] in E.
    rewrite !append_assoc in E.
    apply repr_prefix_code in E; try assumption; [|reflexivity].
    destruct E as [_ E]. exfalso. eapply Hc; [symmetry; exact E | reflexivity].
  - rewrite !repr_items_cons in E. rewrite !append_assoc in E.
    apply repr_prefix_code in E; try assumption; [|reflexivity|reflexivity].
    destruct E as [-> E]. apply String.app_inj in E.
    f_equal. eapply IH; [exact Hs | exact Hs' | congruence | congruence
                        | exact Hr | exact Hc | exact E].
Qed.

Lemma str_tuple_many x y l :
  str_tuple (x :: y :: l) = "(" +:+ repr_items (x :: y :: l) +:+ ")".
Proof. reflexivity. Qed.

Lemma str_tuple_one x : str_tuple [x] = "(" +:+ repr x +:+ ",)".
Proof. reflexivity. Qed.

(** The text of a tuple of scalars determines the tuple. *)
Lemma str_tuple_inj l l' :
  forallb is_scalar l = true -> forallb is_scalar l' = true ->
  str_tuple l = str_tuple l' -> l = l'.
Proof.
  intros Hs Hs' E.
  destruct l as [|x [|x2 l]], l' as [|y [|y2 l']]; try reflexivity.
  all: rewrite ?str_tuple_many, ?str_tuple_one in E;
    change (str_tuple []) with ("(" +:+ ")") in E; apply String.app_inj in E.
  all: pose proof Hs as Hx; pose proof Hs' as Hy;
    cbn [forallb] in Hx, Hy;
    try (apply andb_prop in Hx; destruct Hx as [Hx _]);
    try (apply andb_prop in Hy; destruct Hy as [Hy _]).
  - exfalso. pose proof (parse_val_repr y ",)" Hy eq_refl) as P.
    rewrite <- E in P. discriminate P.
  - exfalso. rewrite repr_items_cons, !append_assoc in E.
    pose proof (parse_val_repr y (", " +:+ repr_items (y2 :: l') +:+ ")") Hy eq_refl) as P.
    rewrite <- E in P. discriminate P.
  - exfalso. pose proof (parse_val_repr x ",)" Hx eq_refl) as P.
    rewrite E in P. discriminate P.
  - apply repr_prefix_code in E; try assumption; [|reflexivity|reflexivity].
    now destruct E as [-> _].
  - exfalso. rewrite repr_items_cons, !append_assoc in E.
    apply repr_prefix_code in E; try assumption; [|reflexivity|reflexivity].
    destruct E as [_ E]. discriminate E.
  - exfalso. rewrite repr_items_cons, !append_assoc in E.
    pose proof (parse_val_repr x (", " +:+ repr_items (x2 :: l) +:+ ")") Hx eq_refl) as P.
    rewrite E in P. discriminate P.
  - exfalso. rewrite repr_items_cons, !append_assoc in E.
    apply repr_prefix_code in E; try assumption; [|reflexivity|reflexivity].
    destruct E as [_ E]. discriminate E.
  - eapply (repr_items_inj _ _ ")"); try eassumption; congruence || reflexivity.
Qed.

Lemma cache_key_inj name a a' :
  forallb is_scalar a = true -> forallb is_scalar a' = true ->
  cache_key name a = cache_key name a' -> a = a'.
Proof.
  unfold cache_key. intros Hs Hs' E. apply String.app_inj in E.
  apply String.app_inj in E. now apply str_tuple_inj.
Qed.

End KeyText.

(** C8, as the code has it.  The key is the handler's name followed by the
    text [str] prints for the argument tuple.  For tuples of [None], [bool],
    [int], [str] and [bytes] values two calls of a handler have the same key
    exactly when their tuples are the same values of the same kinds in the
    same order: the same arguments always give the same key, and the same
    values in another positional order give another key. *)
Theorem cache_key_exact_on_scalars (name : string) (a a' : list pyval) :
  forallb is_scalar a = true ->
  forallb is_scalar a' = true ->
  (cache_key name a = cache_key name a' <-> a = a') /\
  (Permutation a a' -> a <> a' -> cache_key name a <> cache_key name a').
Proof.
  intros Hs Hs'.
  assert (Hinj : cache_key name a = cache_key name a' -> a = a')
    by now apply cache_key_inj.
  split.
  - split; [exact Hinj | now intros ->].
  - intros _ Hne E. apply Hne, Hinj, E.
Qed.

Lemma cache_key_exact_on_scalars_witness :
  (cache_key "h" [PInt 1; PStr "a"] = cache_key "h" [PInt 1; PStr "a"] <->
   [PInt 1; PStr "a"] = [PInt 1; PStr "a"]) /\
  cache_key "h" [PInt 1; PInt 2] <> cache_key "h" [PInt 2; PInt 1].
Proof.
  split.
  - exact (proj1 (cache_key_exact_on_scalars "h" [PInt 1; PStr "a"] [PInt 1; PStr "a"]
                    eq_refl eq_refl)).
  - apply (proj2 (cache_key_exact_on_scalars "h" [PInt 1; PInt 2] [PInt 2; PInt 1]
                    eq_refl eq_refl)).
    + apply perm_swap.
    + discriminate.
Defined.

(** C8 as stated fails twice.  Arguments equal by value need not get the
    same key: [(True,) == (1,)], yet the keys are [h:(True,)] and [h:(1,)].
    And the order of the arguments is not always kept in the key: two
    different objects that print alike, supplied in the two orders, get the
    same key. *)
Lemma cache_key_by_value_and_order_fail :
  py_eq_tuple [PBool true] [PInt 1] = true /\
  cache_key "h" [PBool true] <> cache_key "h" [PInt 1] /\
  py_eq_tuple [PObj "o" 1; PObj "o" 2] [PObj "o" 2; PObj "o" 1] = false /\
  Permutation [PObj "o" 1; PObj "o" 2] [PObj "o" 2; PObj "o" 1] /\
  cache_key "h" [PObj "o" 1; PObj "o" 2] = cache_key "h" [PObj "o" 2; PObj "o" 1].
Proof.
  split; [reflexivity|]. split; [discriminate|]. split; [reflexivity|].
  split; [apply perm_swap | reflexivity].
Qed.

(** ** Runs of the cache wrapper *)

Section CacheRuns.

Variables (T : Z) (name : string) (h : handler) (a : list pyval).

(** A lookup that misses keeps missing as time passes. *)
Lemma hit_false_later t t' key r :
  t <= t' -> hit t key r = false -> hit t' key r = false.
Proof.
  unfold hit, Redis.live. intros Ht.
  destruct (entries r !! key) as [[v e]|]; [|reflexivity].
  destruct (Z.ltb_spec t e), (Z.ltb_spec t' e); try reflexivity; try lia.
  intros; assumption.
Qed.

Lemma hit_false_expired t key r v e :
  entries r !! key = Some (v, e) -> e <= t -> hit t key r = false.
Proof.
  unfold hit, Redis.live. intros -> He.
  destruct (Z.ltb_spec t e); [lia | reflexivity].
Qed.

Lemma hit_false_blank t key r e :
  entries r !! key = Some ([], e) -> hit t key r = false.
Proof.
  unfold hit, Redis.live. intros ->. now destruct (t <? e).
Qed.

(** A miss: the handler runs once, its result is stored and returned. *)
Lemma cached_miss_run w :
  faults (redis w) = [] ->
  hit (now w) (cache_key name a) (redis w) = false ->
  fcall (cached T name h) a w =
    let '(r, s, d) := h a (app w) in
    let w1 := advance d (set_app s (set_calls (calls w ++ [(name, a)])
                (set_log (log w ++ [LogCacheMiss name a]) w))) in
    match r with
    | Raise e => (Raise e, w1)
    | Ok v =>
        match Redis.encode v with
        | None => (Raise DataError, w1)
        | Some b =>
            if T <=? 0 then (Raise ResponseError, w1)
            else (Ok v,
                  set_redis {| entries := <[cache_key name a := (b, now w1 + 1000 * T)]>
                                            (entries (redis w));
                               faults := [] |} w1)
        end
    end.
Proof.
  destruct w as [s0 t0 [en fl] lg cl th]; simpl. intros -> Hhit.
  unfold cached, cache_result, cache_result_on, hit in *. simpl in *.
  unfold bind, Redis.get, Redis.next_fault. simpl.
  destruct (Redis.live t0 (cache_key name a) {| entries := en; faults := [] |})
    as [[|b0 bs]|] eqn:Hl; try discriminate; simpl.
  all: unfold logging_info, run_handler, set_calls, set_log; simpl.
  all: destruct (h a s0) as [[r s] d]; simpl.
  all: destruct r as [v|e]; simpl; try reflexivity.
  all: unfold Redis.setex, Redis.next_fault; simpl.
  all: destruct (Redis.encode v); simpl; try reflexivity.
  all: destruct (T <=? 0); reflexivity.
Qed.

(** A hit: the stored bytes are returned and the wrapped function is not
    called, whatever it is. *)
Lemma cache_hit_run (func : pyfunc) w v :
  faults (redis w) = [] ->
  Redis.live (now w) (cache_key (fname func) a) (redis w) = Some v -> v <> [] ->
  fcall (cache_result T func) a w =
    (Ok (Val (PBytes v)), set_log (log w ++ [LogCacheHit (fname func) a]) w).
Proof.
  destruct w as [s0 t0 [en fl] lg cl th]; simpl. intros -> Hl Hv.
  unfold cache_result, cache_result_on. simpl.
  unfold bind, Redis.get, Redis.next_fault. simpl. rewrite Hl.
  destruct v; [congruence | reflexivity].
Qed.

Lemma hit_true_live t key r :
  hit t key r = true -> exists v, Redis.live t key r = Some v /\ v <> [].
Proof.
  unfold hit. destruct (Redis.live t key r) as [[|b bs]|]; try discriminate.
  intros _. now eexists.
Qed.

End CacheRuns.

(** ** Hits, misses and expiry *)

(** C1, as the code has it.  With the cache reachable, a cold key and a
    handler result the client can store as non-empty bytes, two calls less
    than [T] seconds apart call the handler exactly once: the first call
    returns the handler's result, the second is a hit that returns the
    stored bytes and leaves the handler alone.  The two results are the same
    when the handler's result is already those bytes. *)
Theorem cache_hit_within_ttl
    (T : Z) (name : string) (h : handler) (a : list pyval) (w : world)
    (v : pyobj) (s : app_state) (d : N) (b : list byte) (gap : N) :
  0 < T ->
  faults (redis w) = [] ->
  hit (now w) (cache_key name a) (redis w) = false ->
  h a (app w) = (Ok v, s, d) ->
  Redis.encode v = Some b -> b <> [] ->
  Z.of_N gap < 1000 * T ->
  let first := fcall (cached T name h) a w in
  let second := fcall (cached T name h) a (advance gap (snd first)) in
  fst first = Ok v /\
  fst second = Ok (Val (PBytes b)) /\
  calls (snd second) = calls w ++ [(name, a)] /\
  app (snd second) = s /\
  (v = Val (PBytes b) -> fst second = fst first).
Proof.
  intros HT Hf Hcold Hh He Hb Hgap first second.
  assert (E1 : first =
    (Ok v, set_redis {| entries := <[cache_key name a := (b, now w + Z.of_N d + 1000 * T)]>
                                     (entries (redis w)); faults := [] |}
             (advance d (set_app s (set_calls (calls w ++ [(name, a)])
                (set_log (log w ++ [LogCacheMiss name a]) w)))))).
  { unfold first. rewrite cached_miss_run by assumption.
    rewrite Hh, He. destruct (Z.leb_spec T 0); [lia | reflexivity]. }
  assert (E2 : second =
    (Ok (Val (PBytes b)),
     set_log (log (advance gap (snd first)) ++ [LogCacheHit name a]) (advance gap (snd first)))).
  { unfold second. apply (cache_hit_run T a (def name (run_handler h))).
    - rewrite E1. reflexivity.
    - rewrite E1. unfold Redis.live. simpl. rewrite lookup_insert_eq.
      destruct (Z.ltb_spec (now w + Z.of_N d + Z.of_N gap) (now w + Z.of_N d + 1000 * T));
        [reflexivity | lia].
    - assumption. }
  rewrite E2. rewrite E1. simpl. repeat split.
  intros ->. reflexivity.
Qed.

Lemma cache_hit_within_ttl_witness :
  let first := fcall (cached 5 "h" Sample.ok_bytes) [PInt 3] Sample.world0 in
  let second :=
    fcall (cached 5 "h" Sample.ok_bytes) [PInt 3] (advance 4000 (snd first)) in
  fst first = Ok (Val (PBytes ["o"%byte; "k"%byte])) /\
  fst second = Ok (Val (PBytes ["o"%byte; "k"%byte])) /\
  calls (snd second) = [("h"%string, [PInt 3])] /\
  fst second = fst first.
Proof.
  pose proof (cache_hit_within_ttl 5 "h" Sample.ok_bytes [PInt 3] Sample.world0
    (Val (PBytes ["o"%byte; "k"%byte])) (app Sample.world0) 7%N
    ["o"%byte; "k"%byte] 4000%N
    ltac:(lia) eq_refl eq_refl eq_refl eq_refl ltac:(discriminate) ltac:(lia)) as H.
  destruct H as (H1 & H2 & H3 & _ & H5).
  exact (conj H1 (conj H2 (conj H3 (H5 eq_refl)))).
Defined.

(** C1 as stated fails on the scenario of the specification, [h(x) = x * 2]
    with a five-second entry: the first call returns the integer 6, the
    second call, one second later, returns the bytes [b'6'] read back from
    the cache, so the two calls do not return the same result. *)
Lemma cache_second_result_differs :
  let first := fcall (cached 5 "h" Sample.double) [PInt 3] Sample.world0 in
  let second :=
    fcall (cached 5 "h" Sample.double) [PInt 3] (advance 1000 (snd first)) in
  fst first = Ok (Val (PInt 6)) /\
  fst second = Ok (Val (PBytes ["6"%byte])) /\
  fst second <> fst first.
Proof. vm_compute. split; [reflexivity | split; [reflexivity | discriminate]]. Qed.

(** A handler whose result is stored as empty bytes is called again by the
    second call, one second later. *)
Lemma cache_blank_called_twice :
  let first := fcall (cached 5 "h" Sample.blank) [] Sample.world0 in
  let second := fcall (cached 5 "h" Sample.blank) [] (advance 1000 (snd first)) in
  calls (snd second) = [("h"%string, []); ("h"%string, [])].
Proof. vm_compute. reflexivity. Qed.

Lemma cached_miss_calls T name h a w :
  faults (redis w) = [] ->
  hit (now w) (cache_key name a) (redis w) = false ->
  calls (snd (fcall (cached T name h) a w)) = calls w ++ [(name, a)].
Proof.
  intros Hf Hm. rewrite cached_miss_run by assumption.
  destruct (h a (app w)) as [[[v|e] s] d]; [|reflexivity].
  destruct (Redis.encode v); [|reflexivity].
  destruct (T <=? 0); reflexivity.
Qed.

(** C4. When the handler raises inside the cache wrapper, the same error
    reaches the caller and nothing is stored, so a later call calls the
    handler again. *)
Theorem handler_error_not_cached
    (T : Z) (name : string) (h : handler) (a : list pyval) (w : world)
    (e : exn) (s : app_state) (d : N) (gap : N) :
  faults (redis w) = [] ->
  hit (now w) (cache_key name a) (redis w) = false ->
  h a (app w) = (Raise e, s, d) ->
  let first := fcall (cached T name h) a w in
  let second := fcall (cached T name h) a (advance gap (snd first)) in
  fst first = Raise e /\
  entries (redis (snd first)) = entries (redis w) /\
  calls (snd first) = calls w ++ [(name, a)] /\
  calls (snd second) = calls w ++ [(name, a); (name, a)].
Proof.
  intros Hf Hm Hh first second.
  assert (E1 : first =
    (Raise e, advance d (set_app s (set_calls (calls w ++ [(name, a)])
                (set_log (log w ++ [LogCacheMiss name a]) w))))).
  { unfold first. rewrite cached_miss_run by assumption. now rewrite Hh. }
  unfold second. rewrite E1. cbn [fst snd].
  split; [reflexivity|]. split; [reflexivity|]. split; [reflexivity|].
  rewrite cached_miss_calls.
  - simpl. now rewrite <- app_assoc.
  - exact Hf.
  - simpl. eapply hit_false_later; [|exact Hm]. lia.
Qed.

Lemma handler_error_not_cached_witness :
  let first := fcall (cached 5 "h" Sample.failing) [PInt 3] Sample.world0 in
  let second :=
    fcall (cached 5 "h" Sample.failing) [PInt 3] (advance 1000 (snd first)) in
  fst first = Raise (PyException "ValueError") /\
  entries (redis (snd first)) = entries (redis Sample.world0) /\
  calls (snd first) = calls Sample.world0 ++ [("h"%string, [PInt 3])] /\
  calls (snd second) =
    calls Sample.world0 ++ [("h"%string, [PInt 3]); ("h"%string, [PInt 3])].
Proof.
  exact (handler_error_not_cached 5 "h" Sample.failing [PInt 3] Sample.world0
    (PyException "ValueError") (app Sample.world0) 7%N 1000%N eq_refl eq_refl eq_refl).
Defined.



(** ** Falsy cached values *)

(** Calls of a handler whose result is stored as empty bytes: the lookup
    never short-circuits, every call runs the handler and stores the empty
    bytes again. *)
Lemma blank_calls_accumulate T name h a :
  0 < T ->
  (forall s, exists v s' d, h a s = (Ok v, s', d) /\ Redis.encode v = Some []) ->
  forall waits w,
    faults (redis w) = [] ->
    hit (now w) (cache_key name a) (redis w) = false ->
    let w' := call_each (cached T name h) a waits w in
    calls w' = calls w ++ repeat (name, a) (length waits) /\
    (waits <> [] ->
     entries (redis w') !! cache_key name a = Some ([], now w' + 1000 * T)).
Proof.
  intros HT Hblank waits. induction waits as [|g waits IH]; intros w Hf Hm.
  - simpl. split; [now rewrite app_nil_r | congruence].
  - cbn [call_each length repeat].
    assert (Hm' : hit (now (advance g w)) (cache_key name a) (redis (advance g w)) = false).
    { simpl. eapply hit_false_later; [|exact Hm]. lia. }
    destruct (Hblank (app w)) as (v & s' & d & Hh & He).
    pose proof (cached_miss_run T name h a (advance g w) Hf Hm') as E.
    change (app (advance g w)) with (app w) in E.
    rewrite Hh, He in E. destruct (Z.leb_spec T 0); [lia|].
    rewrite E. cbn [snd].
    match goal with
    | |- context [call_each _ _ waits ?w1] =>
        assert (Hl : entries (redis w1) !! cache_key name a = Some ([], now w1 + 1000 * T))
          by (simpl; apply lookup_insert_eq);
        destruct (IH w1 eq_refl (hit_false_blank _ _ _ _ Hl)) as [IH1 IH2]
    end.
    split.
    + rewrite IH1. simpl. now rewrite <- app_assoc.
    + intros _. destruct waits as [|g' waits]; [exact Hl | apply IH2; discriminate].
Qed.

(** C10, as the code has it.  The wrapper short-circuits on a truthy cached
    value only: with the cache reachable the handler is left alone exactly
    when the lookup finds live, non-empty bytes.  What this client reads back
    is bytes or [None], so the falsy stored value is the empty bytes, which is
    how an empty [bytes] or [str] result is stored: such an entry is a miss
    also while it is live, the handler is called and its result stored
    again, on every call.  (An integer zero is stored as [b'0'], which is
    truthy.) *)
Theorem empty_cached_value_is_a_miss
    (T : Z) (name : string) (h : handler) (a : list pyval) (w : world)
    (expires_at : Z) (v : pyobj) (s : app_state) (d : N) (b : list byte)
    (waits : list N) :
  faults (redis w) = [] ->
  (hit (now w) (cache_key name a) (redis w) = true ->
   calls (snd (fcall (cached T name h) a w)) = calls w /\
   exists stored, stored <> [] /\
     fst (fcall (cached T name h) a w) = Ok (Val (PBytes stored))) /\
  (hit (now w) (cache_key name a) (redis w) = false ->
   calls (snd (fcall (cached T name h) a w)) = calls w ++ [(name, a)]) /\
  (0 < T ->
   entries (redis w) !! cache_key name a = Some ([], expires_at) ->
   now w < expires_at ->
   h a (app w) = (Ok v, s, d) ->
   Redis.encode v = Some b ->
   let r := fcall (cached T name h) a w in
   fst r = Ok v /\
   calls (snd r) = calls w ++ [(name, a)] /\
   entries (redis (snd r)) !! cache_key name a = Some (b, now (snd r) + 1000 * T)) /\
  (0 < T ->
   (forall s0, exists v0 s1 d0, h a s0 = (Ok v0, s1, d0) /\ Redis.encode v0 = Some []) ->
   hit (now w) (cache_key name a) (redis w) = false ->
   let w' := call_each (cached T name h) a waits w in
   calls w' = calls w ++ repeat (name, a) (length waits) /\
   (waits <> [] ->
    entries (redis w') !! cache_key name a = Some ([], now w' + 1000 * T))).
Proof.
  intros Hf. split; [|split; [|split]].
  - intros Hh. apply hit_true_live in Hh. destruct Hh as (stored & Hl & Hne).
    unfold cached.
    rewrite (cache_hit_run T a (def name (run_handler h)) w stored Hf Hl Hne).
    split; [reflexivity | now exists stored].
  - intros Hm. now apply cached_miss_calls.
  - intros HT He Hlive Hh Henc r. unfold r.
    rewrite cached_miss_run; [| exact Hf | eapply hit_false_blank; exact He].
    rewrite Hh, Henc. destruct (Z.leb_spec T 0); [lia|]. simpl.
    split; [reflexivity|]. split; [reflexivity|]. apply lookup_insert_eq.
  - intros HT Hblank Hm. now apply blank_calls_accumulate.
Qed.

Lemma empty_cached_value_is_a_miss_witness :
  let w1 := advance 1000 (snd (fcall (cached 5 "h" Sample.blank) [] Sample.world0)) in
  Redis.live (now w1) (cache_key "h" []) (redis w1) = Some [] /\
  (let r := fcall (cached 5 "h" Sample.blank) [] w1 in
   fst r = Ok (Val (PStr EmptyString)) /\
   calls (snd r) = calls w1 ++ [("h"%string, [])] /\
   entries (redis (snd r)) !! cache_key "h" [] = Some ([], now (snd r) + 1000 * 5)) /\
  (let w' := call_each (cached 5 "h" Sample.blank) [] [0; 1000; 1000]%N Sample.world0 in
   calls w' = [("h"%string, []); ("h"%string, []); ("h"%string, [])] /\
   entries (redis w') !! cache_key "h" [] = Some ([], now w' + 1000 * 5)).
Proof.
  intros w1.
  pose proof (empty_cached_value_is_a_miss 5 "h" Sample.blank [] w1 5007
    (Val (PStr EmptyString)) (app Sample.world0) 7%N [] []
    ltac:(vm_compute; reflexivity)) as (_ & _ & H3 & _).
  pose proof (empty_cached_value_is_a_miss 5 "h" Sample.blank [] Sample.world0 0
    (Val (PStr EmptyString)) (app Sample.world0) 7%N [] [0; 1000; 1000]%N
    eq_refl) as (_ & _ & _ & H4).
  split; [vm_compute; reflexivity|]. split.
  - apply H3; [lia | vm_compute; reflexivity | vm_compute; reflexivity
              | reflexivity | reflexivity].
  - destruct H4 as [H41 H42];
      [lia
      | intros s0; exists (Val (PStr EmptyString)), s0, 7%N; split; reflexivity
      | reflexivity |].
    split; [exact H41 | apply H42; discriminate].
Defined.

(** C10 as stated fails on zero: zero is falsy, yet a handler that answers
    the integer 0 is cached like any other integer, as the bytes [b'0'], and
    the second call, one second later, is a hit that leaves the handler
    alone. *)
Lemma zero_result_is_a_hit :
  let first := fcall (cached 5 "h" Sample.zero) [] Sample.world0 in
  let second := fcall (cached 5 "h" Sample.zero) [] (advance 1000 (snd first)) in
  truthy (Val (PInt 0)) = false /\
  fst first = Ok (Val (PInt 0)) /\
  fst second = Ok (Val (PBytes ["0"%byte])) /\
  calls (snd second) = [("h"%string, [])].
Proof. vm_compute. repeat split. Qed.

(** ** An unreachable cache *)

(** C2, as the code has it.  The wrapper has no handler for the client's
    errors.  When the lookup cannot reach the cache, the call raises
    [ConnectionError] before the handler is called; when the lookup misses
    and the store cannot reach the cache, the call raises [ConnectionError]
    after the handler has run, and the computed result is lost to the
    caller. *)
Theorem cache_unreachable_raises
    (T : Z) (name : string) (h : handler) (a : list pyval) (w : world)
    (fs : list bool) (v : pyobj) (s : app_state) (d : N) :
  (faults (redis w) = true :: fs ->
   let r := fcall (cached T name h) a w in
   fst r = Raise ConnectionError /\
   calls (snd r) = calls w /\ app (snd r) = app w /\
   entries (redis (snd r)) = entries (redis w)) /\
  (faults (redis w) = false :: true :: fs ->
   hit (now w) (cache_key name a) (redis w) = false ->
   h a (app w) = (Ok v, s, d) ->
   let r := fcall (cached T name h) a w in
   fst r = Raise ConnectionError /\
   calls (snd r) = calls w ++ [(name, a)] /\ app (snd r) = s /\
   entries (redis (snd r)) = entries (redis w)).
Proof.
  destruct w as [s0 t0 [en fl] lg cl th]; simpl. split.
  - intros ->. unfold cached, cache_result, cache_result_on. simpl.
    unfold bind, Redis.get, Redis.next_fault. simpl. repeat split.
  - intros -> Hm Hh. unfold cached, cache_result, cache_result_on, hit in *. simpl in *.
    unfold bind, Redis.get, Redis.next_fault. simpl.
    unfold Redis.live in *. simpl in *.
    destruct (en !! cache_key name a) as [[[|b0 bs] ex]|]; simpl in *.
    all: try destruct (t0 <? ex); try discriminate; simpl.
    all: unfold run_handler; simpl; rewrite Hh; simpl.
    all: repeat split.
Qed.

Lemma cache_unreachable_raises_witness :
  (let r := fcall (cached 5 "h" Sample.double) [PInt 3] Sample.world_down in
   fst r = Raise ConnectionError /\ calls (snd r) = []) /\
  (let r := fcall (cached 5 "h" Sample.double) [PInt 3] Sample.world_flaky in
   fst r = Raise ConnectionError /\ calls (snd r) = [("h"%string, [PInt 3])]).
Proof.
  pose proof (cache_unreachable_raises 5 "h" Sample.double [PInt 3] Sample.world_down
    [true; true; true; true; true] (Val (PInt 6)) (app Sample.world0) 7%N) as [H1 _].
  pose proof (cache_unreachable_raises 5 "h" Sample.double [PInt 3] Sample.world_flaky
    [] (Val (PInt 6)) (app Sample.world0) 7%N) as [_ H2].
  split.
  - destruct (H1 eq_refl) as (E1 & E2 & _). exact (conj E1 E2).
  - destruct (H2 eq_refl eq_refl eq_refl) as (E1 & E2 & _). exact (conj E1 E2).
Defined.

(** C2 as stated fails with the cache out of reach: the wrapped call does
    not return the handler's result, it raises [ConnectionError], and the
    handler is never called. *)
Lemma cache_unreachable_no_result :
  fst (Sample.double [PInt 3] (app Sample.world_down)) = (Ok (Val (PInt 6)), app Sample.world_down) /\
  fst (fcall (cached 5 "h" Sample.double) [PInt 3] Sample.world_down) = Raise ConnectionError /\
  calls (snd (fcall (cached 5 "h" Sample.double) [PInt 3] Sample.world_down)) = [].
Proof. vm_compute. repeat split. Qed.

(** ** The instrumentation wrapper *)

(** One run of the wrapped function, then one record if it returned. *)
Lemma performance_metrics_run func a w :
  fcall (performance_metrics func) a w =
    match fcall func a w with
    | (Ok v, w1) =>
        (Ok v, set_log (log w1 ++ [LogExecTime (fname func) (now w) (now w1)]) w1)
    | (Raise e, w1) => (Raise e, w1)
    end.
Proof.
  unfold performance_metrics. cbn [fcall]. unfold bind, time_time.
  destruct (fcall func a w) as [[v|e] w1]; reflexivity.
Qed.

Lemma timing_records_snoc l r :
  timing_records (l ++ [r]) = timing_records l ++ (if is_timing r then [r] else []).
Proof. unfold timing_records. rewrite List.filter_app. reflexivity. Qed.

(** A handler, alone or behind the cache, lets the clock run forward only
    and writes no timing record. *)
Lemma handler_frame name h a w :
  let w1 := snd (fcall (def name (run_handler h)) a w) in
  now w <= now w1 /\ timing_records (log w1) = timing_records (log w).
Proof.
  unfold def, run_handler. simpl.
  destruct (h a (app w)) as [[r s] d]. simpl. split; [lia | reflexivity].
Qed.

Ltac frame_done :=
  split; [simpl; lia
         | unfold timing_records; simpl; rewrite ?List.filter_app; simpl;
           rewrite ?app_nil_r; reflexivity].

Lemma cached_frame T name h a w :
  let w1 := snd (fcall (cached T name h) a w) in
  now w <= now w1 /\ timing_records (log w1) = timing_records (log w).
Proof.
  destruct w as [s0 t0 [en fl] lg cl th].
  unfold cached, cache_result, cache_result_on. simpl.
  unfold bind, Redis.get, Redis.next_fault. simpl.
  destruct fl as [|[] fl]; simpl; try frame_done.
  all: destruct (Redis.live t0 (cache_key name a) _) as [[|b0 bs]|]; simpl;
    try frame_done.
  all: unfold run_handler; simpl; destruct (h a s0) as [[[v|e] s] d]; simpl;
    try frame_done.
  all: unfold Redis.setex, Redis.next_fault; cbn [faults redis set_redis advance set_now].
  all: try destruct fl as [|[] fl]; try destruct (Redis.encode v);
    try destruct (T <=? 0); frame_done.
Qed.

(** C3, as the code has it.  When the wrapped handler returns, the
    instrumentation wrapper has written exactly one timing record, the last
    line of the log when control returns, and its end time is not before its
    start time.  When the wrapped handler raises, the error propagates and no
    timing record is written. *)
Theorem timing_record_when_handler_returns
    (name : string) (h : handler) (ttl : option Z) (a : list pyval) (w : world) :
  let r := fcall (wrap name h ttl) a w in
  match fst r with
  | Ok _ =>
      exists l start_time end_time,
        log (snd r) = l ++ [LogExecTime name start_time end_time] /\
        timing_records (log (snd r)) =
          timing_records (log w) ++ [LogExecTime name start_time end_time] /\
        start_time <= end_time
  | Raise _ => timing_records (log (snd r)) = timing_records (log w)
  end.
Proof.
  destruct ttl as [T|]; cbn [wrap]; rewrite performance_metrics_run.
  - pose proof (cached_frame T name h a w) as [Hn Hl].
    destruct (fcall (cached T name h) a w) as [[v|e] w1]; cbn [fst snd] in *.
    + exists (log w1), (now w), (now w1). unfold set_log. cbn [log].
      rewrite timing_records_snoc, Hl. auto.
    + exact Hl.
  - pose proof (handler_frame name h a w) as [Hn Hl].
    destruct (fcall (def name (run_handler h)) a w) as [[v|e] w1]; cbn [fst snd] in *.
    + exists (log w1), (now w), (now w1). unfold set_log. cbn [log].
      rewrite timing_records_snoc, Hl. auto.
    + exact Hl.
Qed.

(** C3 as stated fails on a handler that raises: instrumented, its error
    reaches the caller and the log has no timing record. *)
Lemma no_timing_record_on_failure :
  let r := fcall (wrap "h" Sample.failing None) [] Sample.world0 in
  fst r = Raise (PyException "ValueError") /\ log (snd r) = [].
Proof. vm_compute. split; reflexivity. Qed.

Lemma set_log_same w : set_log (log w) w = w.
Proof. now destruct w. Qed.

(** C6. The instrumentation wrapper runs the wrapped function once and is
    transparent: it returns the same result or raises the same error, and
    the world it leaves is the one the wrapped function leaves, up to the
    log.  A handler under it is called exactly once.  The posts listing is
    instrumented around its cache wrapper, so a cache hit is timed too. *)
Theorem instrumentation_is_transparent
    (func : pyfunc) (name : string) (h : handler) (a : list pyval) (w : world)
    (v : list byte) :
  fst (fcall (performance_metrics func) a w) = fst (fcall func a w) /\
  (exists l, snd (fcall (performance_metrics func) a w) = set_log l (snd (fcall func a w))) /\
  calls (snd (fcall (performance_metrics (def name (run_handler h))) a w)) =
    calls w ++ [(name, a)] /\
  get_posts = performance_metrics (cache_result 120 (def "get_posts" get_posts_body)) /\
  (faults (redis w) = [] ->
   Redis.live (now w) (cache_key "get_posts" a) (redis w) = Some v -> v <> [] ->
   fcall get_posts a w =
     (Ok (Val (PBytes v)),
      set_log (log w ++ [LogCacheHit "get_posts" a;
                         LogExecTime "get_posts" (now w) (now w)]) w)).
Proof.
  split; [|split; [|split; [|split]]].
  - rewrite performance_metrics_run.
    destruct (fcall func a w) as [[x|e] w1]; reflexivity.
  - rewrite performance_metrics_run.
    destruct (fcall func a w) as [[x|e] w1]; cbn [snd].
    + eexists. reflexivity.
    + exists (log w1). symmetry. apply set_log_same.
  - rewrite performance_metrics_run. unfold def, run_handler. cbn [fcall].
    destruct (h a _) as [[[x|e] s] d]; reflexivity.
  - reflexivity.
  - intros Hf Hl Hv. unfold get_posts. rewrite performance_metrics_run.
    rewrite (cache_hit_run 120 a (def "get_posts" get_posts_body) w v Hf Hl Hv).
    unfold set_log. simpl. now rewrite <- app_assoc.
Qed.

Lemma instrumentation_is_transparent_witness :
  fcall get_posts [] Sample.world_warm =
    (Ok (Val (PBytes ["["%byte; "]"%byte])),
     set_log [LogCacheHit "get_posts" []; LogExecTime "get_posts" 0 0] Sample.world_warm).
Proof.
  pose proof (instrumentation_is_transparent get_posts "h" Sample.double []
    Sample.world_warm ["["%byte; "]"%byte]) as (_ & _ & _ & _ & H).
  exact (H eq_refl ltac:(vm_compute; reflexivity) ltac:(discriminate)).
Defined.

(** ** Write handlers *)

Lemma add_post_run a w :
  fcall add_post a w =
    let w0 := set_calls (calls w ++ [("add_post"%string, a)]) w in
    match a, request_json (app w) with
    | _ :: _, _ => (Raise (PyException "TypeError"), w0)
    | [], None => (Raise UnsupportedMediaType, w0)
    | [], Some body =>
        let uid := dict_get "user_id" body in
        let c := dict_get "content" body in
        let w1 := set_app (reseed_posts uid c (app w)) w0 in
        match insert_post (post_seq (app w)) uid c (db (app w)) with
        | Raise e => (Raise e, round_trip w1)
        | Ok d =>
            let w2 := round_trip (set_db d w1) in
            let w3 := set_threads (threads w ++
                        [ {| target := "long_running_task"; thread_args := [uid] |} ]) w2 in
            (Ok (Tuple [jsonify (message_json "Post added"); Val (PInt 201)]),
             set_log (log w ++ [LogExecTime "add_post" (now w) (now w3)]) w3)
        end
    end.
Proof.
  unfold add_post. rewrite performance_metrics_run.
  destruct w as [[d rq us ps] t rd lg cl th].
  unfold def, add_post_body, no_args. cbn [fcall].
  destruct a as [|x a]; [|reflexivity].
  unfold bind, request_json_get, raise. simpl.
  destruct rq as [body|]; [|reflexivity]. simpl.
  unfold session_commit. simpl.
  destruct (insert_post _ _ _ d) as [d'|e]; reflexivity.
Qed.

Lemma add_user_run a w :
  fcall add_user a w =
    let w0 := set_calls (calls w ++ [("add_user"%string, a)]) w in
    match a, request_json (app w) with
    | _ :: _, _ => (Raise (PyException "TypeError"), w0)
    | [], None => (Raise UnsupportedMediaType, w0)
    | [], Some body =>
        let u := dict_get "username" body in
        let e := dict_get "email" body in
        let w1 := set_app (reseed_users u e (app w)) w0 in
        match insert_user (user_seq (app w)) u e (db (app w)) with
        | Raise err => (Raise err, round_trip w1)
        | Ok d =>
            let w2 := round_trip (set_db d w1) in
            (Ok (Tuple [jsonify (message_json "User added"); Val (PInt 201)]),
             set_log (log w ++ [LogExecTime "add_user" (now w) (now w2)]) w2)
        end
    end.
Proof.
  unfold add_user. rewrite performance_metrics_run.
  destruct w as [[d rq us ps] t rd lg cl th].
  unfold def, add_user_body, no_args. cbn [fcall].
  destruct a as [|x a]; [|reflexivity].
  unfold bind, request_json_get, raise. simpl.
  destruct rq as [body|]; [|reflexivity]. simpl.
  unfold session_commit. simpl.
  destruct (insert_user _ _ _ d) as [d'|e]; reflexivity.
Qed.

(** C7. The write handlers are instrumented only.  Running one leaves the
    cache as it was, and its outcome and effects do not depend on what the
    cache holds or on whether it can be reached: no entry is read and none is
    written.  In [add_post] the background thread is started only once the
    new row has been committed. *)
Theorem write_handlers_bypass_cache (a : list pyval) (w : world) (r : redis_server) :
  add_user = performance_metrics (def "add_user" add_user_body) /\
  add_post = performance_metrics (def "add_post" add_post_body) /\
  redis (snd (fcall add_user a w)) = redis w /\
  redis (snd (fcall add_post a w)) = redis w /\
  fcall add_user a (set_redis r w) =
    (fst (fcall add_user a w), set_redis r (snd (fcall add_user a w))) /\
  fcall add_post a (set_redis r w) =
    (fst (fcall add_post a w), set_redis r (snd (fcall add_post a w))) /\
  (let w' := snd (fcall add_post a w) in
   threads w' = threads w \/
   exists body,
     a = [] /\ request_json (app w) = Some body /\
     insert_post (post_seq (app w)) (dict_get "user_id" body) (dict_get "content" body)
       (db (app w)) = Ok (db (app w')) /\
     threads w' = threads w ++ [ {| target := "long_running_task";
                                    thread_args := [dict_get "user_id" body] |} ] /\
     fst (fcall add_post a w) =
       Ok (Tuple [jsonify (message_json "Post added"); Val (PInt 201)])).
Proof.
  split; [reflexivity|]. split; [reflexivity|].
  rewrite !add_user_run, !add_post_run.
  destruct w as [[d rq us ps] t rd lg cl th]. cbn [app request_json db set_redis].
  destruct a as [|x a]; [|cbn; repeat split; now left].
  destruct rq as [body|]; [|cbn; repeat split; now left].
  cbn [request_json db user_seq post_seq].
  destruct (insert_user _ _ _ d) as [du|eu];
    destruct (insert_post _ _ _ d) as [dp|ep] eqn:Hp; cbn.
  all: split; [reflexivity|]; split; [reflexivity|]; split; [reflexivity|];
    split; [reflexivity|].
  all: first [ now left | right; exists body; repeat split; exact Hp ].
Qed.

(** A post request for a known user: the row is in the table and the thread
    is started; for an unknown user the commit raises and no thread is
    started. *)
Example add_post_runs :
  (let r := fcall add_post [] Sample.world_post in
   fst r = Ok (Tuple [jsonify (message_json "Post added"); Val (PInt 201)]) /\
   posts (db (app (snd r))) = [ {| post_id := 1; post_user_id := 1; content := "hello" |} ] /\
   threads (snd r) = [ {| target := "long_running_task"; thread_args := [PInt 1] |} ] /\
   redis (snd r) = redis Sample.world_post) /\
  (let r := fcall add_post []
              (set_app {| db := Sample.empty_db;
                          request_json := request_json (app Sample.world_post);
                          user_seq := 1; post_seq := 1 |}
                       Sample.world_post) in
   fst r = Raise IntegrityError /\ threads (snd r) = []).
Proof. vm_compute. repeat split. Qed.

(** * Further properties of the service *)

(** ** Runs of the read views *)

Lemma get_users_run w :
  fcall get_users [] w =
    (Ok (jsonify (JList (map user_json (users (db (app w)))))),
     set_log (log w ++ [LogExecTime "get_users" (now w)
                          (now w + Z.of_N (latency (db (app w))))])
       (round_trip (set_calls (calls w ++ [("get_users"%string, [])]) w))).
Proof.
  unfold get_users. rewrite performance_metrics_run.
  destruct w as [[d rq] t rd lg cl th]. reflexivity.
Qed.

(** The listing of the posts never writes a cache entry: a response object
    is not a value the client can store. *)
Lemma get_posts_entries a w :
  entries (redis (snd (fcall get_posts a w))) = entries (redis w).
Proof.
  unfold get_posts. rewrite performance_metrics_run.
  destruct w as [[d rq] t [en fl] lg cl th].
  unfold cache_result, cache_result_on. simpl.
  unfold bind, Redis.get, Redis.next_fault. simpl.
  destruct fl as [|[] fl]; simpl; try reflexivity.
  all: match goal with
       | |- context [Redis.live ?t ?k ?r] =>
           destruct (Redis.live t k r) as [[|b0 bs]|]
       end; simpl; try reflexivity.
  all: destruct a as [|x a]; simpl; try reflexivity.
  all: unfold Redis.setex, Redis.next_fault; simpl.
  all: try (destruct fl as [|[] fl]); reflexivity.
Qed.

(** X2. On a miss the listing of the posts runs its query and then fails:
    the store refuses the response with [DataError], nothing is cached and
    no timing record is written; the view returns only when another writer
    has put a live entry under its key. *)
Theorem get_posts_miss_raises (w : world) :
  faults (redis w) = [] ->
  hit (now w) (cache_key "get_posts" []) (redis w) = false ->
  let r := fcall get_posts [] w in
  fst r = Raise DataError /\
  calls (snd r) = calls w ++ [("get_posts"%string, [])] /\
  entries (redis (snd r)) = entries (redis w) /\
  db (app (snd r)) = db (app w) /\
  log (snd r) = log w ++ [LogCacheMiss "get_posts" []].
Proof.
  unfold get_posts. intros Hf Hm. rewrite performance_metrics_run.
  destruct w as [[d rq] t [en fl] lg cl th]. simpl in Hf. subst fl.
  unfold cache_result, cache_result_on, hit in *. simpl in *.
  unfold bind, Redis.get, Redis.next_fault. simpl.
  destruct (Redis.live t (cache_key "get_posts" []) {| entries := en; faults := [] |})
    as [[|b0 bs]|]; try discriminate; simpl; repeat split.
Qed.

Lemma get_posts_miss_raises_witness :
  fst (fcall get_posts [] Sample.world_post) = Raise DataError /\
  entries (redis (snd (fcall get_posts [] Sample.world_post))) =
    entries (redis Sample.world_post).
Proof.
  destruct (get_posts_miss_raises Sample.world_post eq_refl eq_refl)
    as (H1 & _ & H3 & _).
  exact (conj H1 H3).
Defined.

(** ** The tables *)

Lemma insert_user_ok id x y d d' :
  insert_user id x y d = Ok d' ->
  exists tu te,
    adapt_user (driver d) x y = Ok (tu, te) /\
    is_none x = false /\ is_none y = false /\
    d' = {| users := users d ++ [ {| user_id := id; username := tu; email := te |} ];
            posts := posts d; latency := latency d; driver := driver d |}.
Proof.
  unfold insert_user.
  destruct (adapt_user (driver d) x y) as [[tu te]|err]; [|discriminate].
  destruct (is_none x) eqn:Hx; [discriminate|].
  destruct (is_none y) eqn:Hy; [discriminate|]. cbn [orb].
  destruct (existsb _ (users d)); [discriminate|].
  intros [= <-]. now exists tu, te.
Qed.




(** X3. A user cannot be added twice: after a successful [add_user], the
    same request again breaks the UNIQUE constraint and raises
    [IntegrityError], and the tables stay as the first request left them. *)
Theorem add_user_twice_rejected (w : world) (r0 : pyobj) :
  fst (fcall add_user [] w) = Ok r0 ->
  let w1 := snd (fcall add_user [] w) in
  fst (fcall add_user [] w1) = Raise IntegrityError /\
  db (app (snd (fcall add_user [] w1))) = db (app w1).
Proof.
  intros H. cbv zeta. revert H. rewrite !add_user_run.
  destruct w as [[d rq us ps] t rd lg cl th]. cbn [app request_json db user_seq].
  destruct rq as [fields|]; [|discriminate].
  destruct (insert_user _ _ _ d) as [d'|e0] eqn:Hi; [|discriminate].
  intros _. cbn [snd set_log round_trip advance set_now set_db set_app set_calls app
                 request_json db user_seq reseed_users].
  apply insert_user_ok in Hi. destruct Hi as (tu & te & Ha & Hu & He & ->).
  unfold insert_user at 1 2. cbn [users driver]. rewrite Ha, Hu, He. cbn [orb].
  rewrite List.existsb_app. cbn [existsb username email].
  rewrite !String.eqb_refl. cbn [orb]. rewrite orb_true_r.
  split; reflexivity.
Qed.

Lemma add_user_twice_rejected_witness :
  fst (fcall add_user [] (snd (fcall add_user [] Sample.world_signup))) =
    Raise IntegrityError /\
  db (app (snd (fcall add_user [] (snd (fcall add_user [] Sample.world_signup))))) =
    db (app (snd (fcall add_user [] Sample.world_signup))).
Proof.
  exact (add_user_twice_rejected Sample.world_signup
           (Tuple [jsonify (message_json "User added"); Val (PInt 201)]) eq_refl).
Defined.

Lemma insert_user_none id x y d :
  x = PNone \/ y = PNone -> exists e, insert_user id x y d = Raise e.
Proof.
  intros H. unfold insert_user.
  destruct (adapt_user (driver d) x y) as [[tu te]|err]; [|now eexists].
  destruct H as [-> | ->]; cbn [is_none orb]; rewrite ?orb_true_r; now eexists.
Qed.

Lemma insert_post_none id x y d :
  x = PNone \/ y = PNone -> exists e, insert_post id x y d = Raise e.
Proof.
  intros H. unfold insert_post.
  destruct (adapt_post (driver d) x y) as [[nuid tc]|err]; [|now eexists].
  destruct H as [-> | ->]; cbn [is_none orb]; rewrite ?orb_true_r; now eexists.
Qed.

(** X4. A field missing from the JSON body (or sent as [null]) reads as
    [None], and the write is refused: [add_user] and [add_post] raise, the
    tables are unchanged, and [add_post] starts no thread. *)
Theorem write_with_missing_field_rejected
    (w : world) (fields : list (string * pyval)) :
  request_json (app w) = Some fields ->
  (dict_get "username" fields = PNone \/ dict_get "email" fields = PNone ->
   (exists e, fst (fcall add_user [] w) = Raise e) /\
   db (app (snd (fcall add_user [] w))) = db (app w)) /\
  (dict_get "user_id" fields = PNone \/ dict_get "content" fields = PNone ->
   (exists e, fst (fcall add_post [] w) = Raise e) /\
   db (app (snd (fcall add_post [] w))) = db (app w) /\
   threads (snd (fcall add_post [] w)) = threads w).
Proof.
  intros Hb. rewrite add_user_run, add_post_run.
  destruct w as [[d rq us ps] t rd lg cl th]. cbn [app request_json db user_seq post_seq] in *.
  subst rq. split; intros Hn.
  - destruct (insert_user_none us _ _ d Hn) as [e ->].
    split; [now exists e | reflexivity].
  - destruct (insert_post_none ps _ _ d Hn) as [e ->].
    split; [now exists e | split; reflexivity].
Qed.

Lemma write_with_missing_field_rejected_witness :
  (exists e, fst (fcall add_user [] Sample.world_no_email) = Raise e) /\
  db (app (snd (fcall add_user [] Sample.world_no_email))) = db (app Sample.world_no_email).
Proof.
  exact (proj1 (write_with_missing_field_rejected Sample.world_no_email
                  [("username"%string, PStr "bob")] eq_refl) (or_intror eq_refl)).
Defined.

Lemma add_post_redis a w : redis (snd (fcall add_post a w)) = redis w.
Proof.
  rewrite add_post_run. destruct w as [[d rq us ps] t rd lg cl th].
  cbn [app request_json db post_seq].
  destruct a; [|reflexivity]. destruct rq; [|reflexivity].
  destruct (insert_post _ _ _ d); reflexivity.
Qed.

(** X5. Writes do not invalidate the cache: while the cached listing of the
    posts is live, [get_posts] called after an [add_post] still answers the
    cached bytes, whatever the request added. *)
Theorem cached_posts_survive_add_post (w : world) (v : list byte) (expires_at : Z) :
  faults (redis w) = [] ->
  entries (redis w) !! cache_key "get_posts" [] = Some (v, expires_at) ->
  v <> [] ->
  now (snd (fcall add_post [] w)) < expires_at ->
  fst (fcall get_posts [] (snd (fcall add_post [] w))) = Ok (Val (PBytes v)).
Proof.
  intros Hf He Hv Ht.
  pose proof (add_post_redis [] w) as Hr.
  set (w1 := snd (fcall add_post [] w)) in *.
  unfold get_posts. rewrite performance_metrics_run.
  rewrite (cache_hit_run 120 [] (def "get_posts" get_posts_body) w1 v).
  - reflexivity.
  - now rewrite Hr.
  - unfold Redis.live. rewrite Hr. cbn [fname def]. rewrite He.
    destruct (Z.ltb_spec (now w1) expires_at); [reflexivity | lia].
  - exact Hv.
Qed.

Lemma cached_posts_survive_add_post_witness :
  posts (db (app (snd (fcall add_post [] Sample.world_post_warm)))) =
    [ {| post_id := 1; post_user_id := 1; content := "hello" |} ] /\
  fst (fcall get_posts [] (snd (fcall add_post [] Sample.world_post_warm))) =
    Ok (Val (PBytes ["["%byte; "]"%byte])).
Proof.
  split; [vm_compute; reflexivity|].
  apply (cached_posts_survive_add_post Sample.world_post_warm ["["%byte; "]"%byte] 60000).
  - reflexivity.
  - vm_compute. reflexivity.
  - discriminate.
  - vm_compute. reflexivity.
Defined.

(** ** The started tasks *)







(** ** More on the cache wrapper *)

(** A miss that stores, followed by a lookup under the same name before the
    entry expires: the lookup is a hit whatever function is wrapped. *)
Lemma store_then_hit T T' name h (func : pyfunc) a w v s d b gap :
  0 < T ->
  faults (redis w) = [] ->
  hit (now w) (cache_key name a) (redis w) = false ->
  h a (app w) = (Ok v, s, d) ->
  Redis.encode v = Some b -> b <> [] ->
  Z.of_N gap < 1000 * T ->
  fname func = name ->
  let w1 := snd (fcall (cached T name h) a w) in
  w1 = set_redis {| entries := <[cache_key name a := (b, now w + Z.of_N d + 1000 * T)]>
                                 (entries (redis w)); faults := [] |}
         (advance d (set_app s (set_calls (calls w ++ [(name, a)])
            (set_log (log w ++ [LogCacheMiss name a]) w)))) /\
  fcall (cache_result T' func) a (advance gap w1) =
    (Ok (Val (PBytes b)),
     set_log (log (advance gap w1) ++ [LogCacheHit name a]) (advance gap w1)).
Proof.
  intros HT Hf Hm Hh He Hb Hgap Hname w1.
  assert (E1 : w1 =
    set_redis {| entries := <[cache_key name a := (b, now w + Z.of_N d + 1000 * T)]>
                                     (entries (redis w)); faults := [] |}
             (advance d (set_app s (set_calls (calls w ++ [(name, a)])
                (set_log (log w ++ [LogCacheMiss name a]) w))))).
  { unfold w1. rewrite cached_miss_run by assumption.
    rewrite Hh, He. destruct (Z.leb_spec T 0); [lia | reflexivity]. }
  split; [exact E1|].
  rewrite <- Hname. apply cache_hit_run.
  - rewrite E1. reflexivity.
  - rewrite E1, Hname. unfold Redis.live. simpl. rewrite lookup_insert_eq.
    destruct (Z.ltb_spec (now w + Z.of_N d + Z.of_N gap) (now w + Z.of_N d + 1000 * T));
      [reflexivity | lia].
  - assumption.
Qed.

(** X8. A handler result the client cannot store (here [None], a [bool], a
    response object or a tuple) makes a miss fail: the handler has run and
    its effects stay, [DataError] is raised in place of the result, and
    nothing is cached. *)
Theorem unstorable_result_raises
    (T : Z) (name : string) (h : handler) (a : list pyval) (w : world)
    (v : pyobj) (s : app_state) (d : N) :
  faults (redis w) = [] ->
  hit (now w) (cache_key name a) (redis w) = false ->
  h a (app w) = (Ok v, s, d) ->
  Redis.encode v = None ->
  let r := fcall (cached T name h) a w in
  fst r = Raise DataError /\
  app (snd r) = s /\
  calls (snd r) = calls w ++ [(name, a)] /\
  redis (snd r) = redis w.
Proof.
  intros Hf Hm Hh He r. unfold r. rewrite cached_miss_run by assumption.
  rewrite Hh, He. repeat split.
Qed.

Lemma unstorable_result_raises_witness :
  let r := fcall (cached 5 "h" Sample.none_result) [] Sample.world0 in
  fst r = Raise DataError /\
  app (snd r) = app Sample.world0 /\
  calls (snd r) = calls Sample.world0 ++ [("h"%string, [])] /\
  redis (snd r) = redis Sample.world0.
Proof.
  exact (unstorable_result_raises 5 "h" Sample.none_result [] Sample.world0
           (Val PNone) (app Sample.world0) 7%N eq_refl eq_refl eq_refl eq_refl).
Defined.

(** X9. A wrapper made with a timeout that is not positive never caches: no
    call changes the entries, and on a miss whose result could be stored the
    handler runs, its effects stay, and [ResponseError] is raised in place of
    the result. *)
Theorem nonpositive_timeout_never_stores
    (T : Z) (name : string) (h : handler) (a : list pyval) (w : world)
    (v : pyobj) (s : app_state) (d : N) (b : list byte) :
  T <= 0 ->
  entries (redis (snd (fcall (cached T name h) a w))) = entries (redis w) /\
  (faults (redis w) = [] ->
   hit (now w) (cache_key name a) (redis w) = false ->
   h a (app w) = (Ok v, s, d) ->
   Redis.encode v = Some b ->
   let r := fcall (cached T name h) a w in
   fst r = Raise ResponseError /\
   calls (snd r) = calls w ++ [(name, a)] /\
   app (snd r) = s).
Proof.
  intros HT. split.
  - destruct w as [s0 t0 [en fl] lg cl th].
    unfold cached, cache_result, cache_result_on. simpl.
    unfold bind, Redis.get, Redis.next_fault. simpl.
    destruct fl as [|[] fl]; simpl; try reflexivity.
    all: destruct (Redis.live t0 (cache_key name a) _) as [[|b0 bs]|]; simpl;
      try reflexivity.
    all: unfold run_handler; simpl; destruct (h a s0) as [[[x|e] s1] d1]; simpl;
      try reflexivity.
    all: unfold Redis.setex, Redis.next_fault; cbn [faults redis set_redis advance set_now].
    all: try destruct fl as [|[] fl]; try destruct (Redis.encode x);
      try (destruct (Z.leb_spec T 0); [|lia]); reflexivity.
  - intros Hf Hm Hh He r. unfold r. rewrite cached_miss_run by assumption.
    rewrite Hh, He. destruct (Z.leb_spec T 0); [|lia]. repeat split.
Qed.

Lemma nonpositive_timeout_never_stores_witness :
  let r := fcall (cached 0 "h" Sample.double) [PInt 3] Sample.world0 in
  entries (redis (snd r)) = entries (redis Sample.world0) /\
  fst r = Raise ResponseError /\
  calls (snd r) = calls Sample.world0 ++ [("h"%string, [PInt 3])] /\
  app (snd r) = app Sample.world0.
Proof.
  destruct (nonpositive_timeout_never_stores 0 "h" Sample.double [PInt 3] Sample.world0
    (Val (PInt 6)) (app Sample.world0) 7%N ["6"%byte] ltac:(lia)) as [H1 H2].
  exact (conj H1 (H2 eq_refl eq_refl eq_refl eq_refl)).
Defined.

(** X10. Entries are shared by name: two handlers with the same [__name__]
    use the same keys, so within the life of an entry stored for the first a
    call of the second with the same arguments answers the first handler's
    stored bytes, and the second handler is not called. *)
Theorem same_name_shares_entries
    (T T' : Z) (name : string) (h h' : handler) (a : list pyval) (w : world)
    (v : pyobj) (s : app_state) (d : N) (b : list byte) (gap : N) :
  0 < T ->
  faults (redis w) = [] ->
  hit (now w) (cache_key name a) (redis w) = false ->
  h a (app w) = (Ok v, s, d) ->
  Redis.encode v = Some b -> b <> [] ->
  Z.of_N gap < 1000 * T ->
  let first := fcall (cached T name h) a w in
  let second := fcall (cached T' name h') a (advance gap (snd first)) in
  fst second = Ok (Val (PBytes b)) /\
  calls (snd second) = calls w ++ [(name, a)] /\
  app (snd second) = s.
Proof.
  intros HT Hf Hm Hh He Hb Hgap first second.
  destruct (store_then_hit T T' name h (def name (run_handler h')) a w v s d b gap
              HT Hf Hm Hh He Hb Hgap eq_refl) as [E1 E2].
  cbv zeta in E1, E2. subst second first.
  change (cached T' name h') with (cache_result T' (def name (run_handler h'))).
  rewrite E2, E1. repeat split.
Qed.

Lemma same_name_shares_entries_witness :
  let first := fcall (cached 5 "h" Sample.double) [PInt 3] Sample.world0 in
  let second := fcall (cached 9 "h" Sample.succ) [PInt 3] (advance 1000 (snd first)) in
  fst (Sample.succ [PInt 3] (app Sample.world0)) = (Ok (Val (PInt 4)), app Sample.world0) /\
  fst second = Ok (Val (PBytes ["6"%byte])) /\
  calls (snd second) = calls Sample.world0 ++ [("h"%string, [PInt 3])].
Proof.
  destruct (same_name_shares_entries 5 9 "h" Sample.double Sample.succ [PInt 3]
    Sample.world0 (Val (PInt 6)) (app Sample.world0) 7%N ["6"%byte] 1000%N
    ltac:(lia) eq_refl eq_refl eq_refl eq_refl ltac:(discriminate) ltac:(lia))
    as (H1 & H2 & _).
  exact (conj eq_refl (conj H1 H2)).
Defined.

(** X11. A call changes no entry but the one under its own key: whatever
    the call does, an entry stored under another key is what it was.  So for
    tuples of [None], [bool], [int], [str] and [bytes] values a call with
    arguments [a] leaves the entry of the same handler for any other
    arguments [a'] alone. *)
Theorem only_own_key_touched
    (T : Z) (name : string) (h : handler) (a a' : list pyval) (w : world)
    (key : string) :
  (cache_key name a <> key ->
   entries (redis (snd (fcall (cached T name h) a w))) !! key =
     entries (redis w) !! key) /\
  (forallb is_scalar a = true -> forallb is_scalar a' = true -> a <> a' ->
   entries (redis (snd (fcall (cached T name h) a w))) !! cache_key name a' =
     entries (redis w) !! cache_key name a').
Proof.
  assert (Hframe : forall k, cache_key name a <> k ->
            entries (redis (snd (fcall (cached T name h) a w))) !! k =
              entries (redis w) !! k).
  { intros k Hk.
    destruct w as [s0 t0 [en fl] lg cl th].
    unfold cached, cache_result, cache_result_on. simpl.
    unfold bind, Redis.get, Redis.next_fault. simpl.
    destruct fl as [|[] fl]; simpl; try reflexivity.
    all: destruct (Redis.live t0 (cache_key name a) _) as [[|b0 bs]|]; simpl;
      try reflexivity.
    all: unfold run_handler; simpl; destruct (h a s0) as [[[x|e] s1] d1]; simpl;
      try reflexivity.
    all: unfold Redis.setex, Redis.next_fault; cbn [faults redis set_redis advance set_now].
    all: try destruct fl as [|[] fl]; try destruct (Redis.encode x);
      try destruct (T <=? 0); cbn; try reflexivity.
    all: now rewrite lookup_insert_ne. }
  split; [apply Hframe|].
  intros Hs Hs' Hne. apply Hframe. intros E. apply Hne.
  eapply cache_key_inj; eassumption.
Qed.

Lemma only_own_key_touched_witness :
  let w1 := snd (fcall (cached 5 "h" Sample.double) [PInt 3] Sample.world0) in
  entries (redis (snd (fcall (cached 5 "h" Sample.double) [PInt 4] w1)))
    !! cache_key "h" [PInt 3] = Some (["6"%byte], 5007) /\
  entries (redis (snd (fcall (cached 5 "h" Sample.double) [PInt 4] w1)))
    !! "get_posts:()"%string = None.
Proof.
  intros w1.
  destruct (only_own_key_touched 5 "h" Sample.double [PInt 4] [PInt 3] w1
              "get_posts:()") as [H1 H2].
  split.
  - etransitivity; [apply H2; [reflexivity | reflexivity | discriminate]|].
    vm_compute. reflexivity.
  - etransitivity; [apply H1; discriminate|]. vm_compute. reflexivity.
Defined.

Lemma colon_free_prefix n : forall n' r r',
  has_char ":" n = false -> has_char ":" n' = false ->
  n +:+ String ":" r = n' +:+ String ":" r' -> n = n' /\ r = r'.
Proof.
  induction n as [|c n IH]; intros [|c' n'] r r' Hn Hn' E.
  - now injection E.
  - exfalso. change (String ":" r = String c' (n' +:+ String ":" r')) in E.
    injection E as Hc _. subst c'. discriminate Hn'.
  - exfalso. change (String c (n +:+ String ":" r) = String ":" r') in E.
    injection E as Hc _. subst c. discriminate Hn.
  - change (String c (n +:+ String ":" r) = String c' (n' +:+ String ":" r')) in E.
    injection E as Hc E. subst c'.
    cbn [has_char] in Hn, Hn'.
    apply orb_false_elim in Hn, Hn'.
    destruct (IH n' r r' (proj2 Hn) (proj2 Hn') E) as [-> ->]. now split.
Qed.

(** X12. For handlers whose names have no colon (every name written with
    [def]) and argument tuples of [None], [bool], [int], [str] and [bytes]
    values, calls that differ in the handler's name or in the argument tuple
    have different keys. *)
Theorem distinct_calls_distinct_keys (name name' : string) (a a' : list pyval) :
  has_char ":" name = false ->
  has_char ":" name' = false ->
  forallb is_scalar a = true ->
  forallb is_scalar a' = true ->
  name <> name' \/ a <> a' ->
  cache_key name a <> cache_key name' a'.
Proof.
  unfold cache_key. intros Hn Hn' Hs Hs' Hne E.
  apply colon_free_prefix in E; try assumption.
  destruct E as [E1 E2]. apply str_tuple_inj in E2; try assumption. tauto.
Qed.

Lemma distinct_calls_distinct_keys_witness :
  cache_key "get_posts" [] <> cache_key "get_users" [] /\
  cache_key "h" [PStr "1"] <> cache_key "h" [PInt 1].
Proof.
  split.
  - apply (distinct_calls_distinct_keys "get_posts" "get_users" [] []
             eq_refl eq_refl eq_refl eq_refl).
    left. discriminate.
  - apply (distinct_calls_distinct_keys "h" "h" [PStr "1"] [PInt 1]
             eq_refl eq_refl eq_refl eq_refl).
    right. discriminate.
Defined.

(** X13. A hit does not renew the entry: the entry stored by a miss expires
    [T] seconds after it was stored however often it was read in between, and
    the first call after that calls the handler again. *)
Theorem hit_does_not_renew
    (T : Z) (name : string) (h : handler) (a : list pyval) (w : world)
    (v : pyobj) (s : app_state) (d : N) (b : list byte) (gap gap' : N) :
  0 < T ->
  faults (redis w) = [] ->
  hit (now w) (cache_key name a) (redis w) = false ->
  h a (app w) = (Ok v, s, d) ->
  Redis.encode v = Some b -> b <> [] ->
  Z.of_N gap < 1000 * T ->
  1000 * T <= Z.of_N gap + Z.of_N gap' ->
  let first := fcall (cached T name h) a w in
  let second := fcall (cached T name h) a (advance gap (snd first)) in
  let third := fcall (cached T name h) a (advance gap' (snd second)) in
  fst second = Ok (Val (PBytes b)) /\
  redis (snd second) = redis (snd first) /\
  calls (snd third) = calls w ++ [(name, a); (name, a)].
Proof.
  intros HT Hf Hm Hh He Hb Hgap Hgap' first second third.
  destruct (store_then_hit T T name h (def name (run_handler h)) a w v s d b gap
              HT Hf Hm Hh He Hb Hgap eq_refl) as [E1 E2].
  cbv zeta in E1, E2. fold first in E1, E2.
  change (cache_result T (def name (run_handler h))) with (cached T name h) in E2.
  fold second in E2.
  split; [now rewrite E2|]. split; [now rewrite E2|].
  unfold third. rewrite cached_miss_calls.
  - rewrite E2, E1. simpl. now rewrite <- app_assoc.
  - rewrite E2, E1. reflexivity.
  - rewrite E2, E1. eapply hit_false_expired.
    + simpl. apply lookup_insert_eq.
    + simpl. lia.
Qed.

Lemma hit_does_not_renew_witness :
  let first := fcall (cached 5 "h" Sample.ok_bytes) [] Sample.world0 in
  let second := fcall (cached 5 "h" Sample.ok_bytes) [] (advance 4000 (snd first)) in
  let third := fcall (cached 5 "h" Sample.ok_bytes) [] (advance 1000 (snd second)) in
  fst second = Ok (Val (PBytes ["o"%byte; "k"%byte])) /\
  redis (snd second) = redis (snd first) /\
  calls (snd third) = calls Sample.world0 ++ [("h"%string, []); ("h"%string, [])].
Proof.
  exact (hit_does_not_renew 5 "h" Sample.ok_bytes [] Sample.world0
    (Val (PBytes ["o"%byte; "k"%byte])) (app Sample.world0) 7%N ["o"%byte; "k"%byte]
    4000%N 1000%N
    ltac:(lia) eq_refl eq_refl eq_refl eq_refl ltac:(discriminate) ltac:(lia) ltac:(lia)).
Defined.

Lemma repr_int_bytes z : list_byte_of_string (repr_int z) <> [].
Proof.
  destruct (repr_int_head z EmptyString) as (c & s & Hs & _).
  assert (E : repr_int z +:+ EmptyString = repr_int z).
  { generalize (repr_int z). intros x. induction x as [|y x IH]; [reflexivity|].
    rewrite append_cons. now f_equal. }
  rewrite E in Hs. rewrite Hs. discriminate.
Qed.

(** X14. An integer result is always cached, zero included: it is stored as
    its decimal text, which is never empty, so a second call within the
    entry's life is a hit that answers that text as bytes. *)
Theorem int_result_cached_as_text
    (T : Z) (name : string) (h : handler) (a : list pyval) (w : world)
    (z : Z) (s : app_state) (d : N) (gap : N) :
  0 < T ->
  faults (redis w) = [] ->
  hit (now w) (cache_key name a) (redis w) = false ->
  h a (app w) = (Ok (Val (PInt z)), s, d) ->
  Z.of_N gap < 1000 * T ->
  let first := fcall (cached T name h) a w in
  let second := fcall (cached T name h) a (advance gap (snd first)) in
  fst second = Ok (Val (PBytes (list_byte_of_string (repr_int z)))) /\
  calls (snd second) = calls w ++ [(name, a)].
Proof.
  intros HT Hf Hm Hh Hgap first second.
  destruct (store_then_hit T T name h (def name (run_handler h)) a w (Val (PInt z)) s d
              (list_byte_of_string (repr_int z)) gap
              HT Hf Hm Hh eq_refl (repr_int_bytes z) Hgap eq_refl) as [E1 E2].
  cbv zeta in E1, E2. subst second first. unfold cached at 1 3.
  rewrite E2, E1. split; reflexivity.
Qed.

Lemma int_result_cached_as_text_witness :
  let first := fcall (cached 5 "h" Sample.zero) [] Sample.world0 in
  let second := fcall (cached 5 "h" Sample.zero) [] (advance 1000 (snd first)) in
  fst second = Ok (Val (PBytes ["0"%byte])) /\
  calls (snd second) = calls Sample.world0 ++ [("h"%string, [])].
Proof.
  exact (int_result_cached_as_text 5 "h" Sample.zero [] Sample.world0 0
    (app Sample.world0) 7%N 1000%N ltac:(lia) eq_refl eq_refl eq_refl ltac:(lia)).
Defined.

(** X15. With the cache out of reach the two listings part ways: the posts
    listing raises [ConnectionError] before its query runs and leaves no
    timing record, while the users listing, which is not cached, answers as
    usual. *)
Theorem listings_with_cache_down (w : world) (fs : list bool) :
  faults (redis w) = true :: fs ->
  fst (fcall get_posts [] w) = Raise ConnectionError /\
  calls (snd (fcall get_posts [] w)) = calls w /\
  log (snd (fcall get_posts [] w)) = log w /\
  fst (fcall get_users [] w) =
    Ok (jsonify (JList (map user_json (users (db (app w)))))).
Proof.
  intros Hf. rewrite get_users_run. unfold get_posts.
  rewrite performance_metrics_run.
  destruct w as [[d rq] t [en fl] lg cl th]. simpl in Hf. subst fl.
  repeat split.
Qed.

Lemma listings_with_cache_down_witness :
  fst (fcall get_posts [] Sample.world_down) = Raise ConnectionError /\
  calls (snd (fcall get_posts [] Sample.world_down)) = calls Sample.world_down /\
  log (snd (fcall get_posts [] Sample.world_down)) = log Sample.world_down /\
  fst (fcall get_users [] Sample.world_down) =
    Ok (jsonify (JList (map user_json (users (db (app Sample.world_down)))))).
Proof.
  exact (listings_with_cache_down Sample.world_down [true; true; true; true; true] eq_refl).
Defined.
